(** * Solar backdrop renderer: a shallow embedding of [main.js]

    The script is one immediately-invoked closure.  Its mutable variables
    ([reduceMotion], [rafId], the renderer, the camera, the scene graph) become
    the record [App]; the part of the host page it talks to (canvas, fallback
    panel, window metrics, the animation-frame queue) becomes [Browser].
    Every function of the script is a function on these records, event
    listeners are the cases of [step].

    JavaScript numbers are idealised as real numbers: [Math.cos], [Math.sin]
    and [Math.PI] are [cos], [sin] and [PI], and the operations do not
    round.  Where rounding decides a statement, the arithmetic of
    [updatePositions] is evaluated again in binary64, in the module
    [Double].  Objects that the script shares between the scene graph and its
    own arrays (the sun and the planet meshes) live in one store, the scene,
    and are referred to by their index in it. *)

From Stdlib Require Import PrimFloat.
From Stdlib Require Import Reals Lra List String NArith Lia Bool.
Import ListNotations.
Open Scope R_scope.

(* Decimal literals of binary64 values stand for the nearest double, as in
   the script. *)
Set Warnings "-inexact-float".

(** ** The rendering engine (external collaborator) *)

Module THREE.

Record Vector3 := mkVector3 { x : R; y : R; z : R }.

Definition origin : Vector3 := mkVector3 0 0 0.

Inductive Geometry :=
| SphereGeometry (radius : R) (widthSegments heightSegments : N)
| RingGeometry (innerRadius outerRadius : R) (thetaSegments : N).

(** Which colour-management property a texture object exposes; it differs
    between versions of the engine. *)
Inductive TextureApi := HasColorSpace | HasEncoding | HasNeither.

Inductive ColorManagement := SRGBColorSpace | sRGBEncoding | Unmanaged.

Record Texture := mkTexture {
  gradient_from : string;
  gradient_to : string;
  tex_size : N;
  color_mgmt : ColorManagement;
  anisotropy : N
}.

Record Material := mkMaterial {
  material_map : option Texture;
  color : N;
  doubleSide : bool;
  transparent : bool;
  opacity : R
}.

(** [new MeshBasicMaterial({ map })]: the other parameters keep the engine's
    defaults. *)
Definition MeshBasicMaterial_map (t : Texture) : Material :=
  mkMaterial (Some t) 0xffffff false false 1.

#[local] Set Warnings "-register-all".

Inductive Mesh := mkMesh {
  geometry : Geometry;
  material : Material;
  position : Vector3;
  rotation : Vector3;
  children : list Mesh
}.

(** [new Mesh(geometry, material)]: at the origin, not rotated, no child. *)
Definition newMesh (g : Geometry) (m : Material) : Mesh :=
  mkMesh g m origin origin [].

Inductive Object3D :=
| AmbientLight (light_color : N) (intensity : R)
| PointLight (light_color : N) (intensity distance : R)
| MeshObj (m : Mesh).

(** A scene is the list of the objects added to it, in order; an object is
    referred to by its index. *)
Definition Scene := list Object3D.

Record PerspectiveCamera := mkCamera {
  fov : R;
  aspect : R;
  near : R;
  far : R;
  cam_position : Vector3;
  cam_target : Vector3;
  projection_aspect : R
}.

Record WebGLRenderer := mkRenderer {
  alpha : bool;
  antialias : bool;
  clearColor : N;
  clearAlpha : R;
  pixelRatio : R;
  width : R;
  height : R;
  draws : nat
}.

Definition set_position_x (v : R) (m : Mesh) : Mesh :=
  mkMesh (geometry m) (material m)
         (mkVector3 v (y (position m)) (z (position m)))
         (rotation m) (children m).

Definition set_position_z (v : R) (m : Mesh) : Mesh :=
  mkMesh (geometry m) (material m)
         (mkVector3 (x (position m)) (y (position m)) v)
         (rotation m) (children m).

Definition set_rotation_x (v : R) (m : Mesh) : Mesh :=
  mkMesh (geometry m) (material m) (position m)
         (mkVector3 v (y (rotation m)) (z (rotation m))) (children m).

Definition set_rotation_y (v : R) (m : Mesh) : Mesh :=
  mkMesh (geometry m) (material m) (position m)
         (mkVector3 (x (rotation m)) v (z (rotation m))) (children m).

(** [mesh.add(child)] *)
Definition add (child : Mesh) (m : Mesh) : Mesh :=
  mkMesh (geometry m) (material m) (position m) (rotation m)
         (children m ++ [child]).

(** The mesh stored at index [i], if that object is a mesh. *)
Definition mesh_at (scene : Scene) (i : nat) : option Mesh :=
  match nth_error scene i with
  | Some (MeshObj m) => Some m
  | _ => None
  end.

(** In-place mutation of the mesh at index [i]. *)
Fixpoint update_mesh (i : nat) (f : Mesh -> Mesh) (scene : Scene) : Scene :=
  match scene, i with
  | [], _ => []
  | MeshObj m :: rest, O => MeshObj (f m) :: rest
  | o :: rest, O => o :: rest
  | o :: rest, S j => o :: update_mesh j f rest
  end.

Definition setPixelRatio (v : R) (r : WebGLRenderer) : WebGLRenderer :=
  mkRenderer (alpha r) (antialias r) (clearColor r) (clearAlpha r)
             v (width r) (height r) (draws r).

Definition setSize (w h : R) (r : WebGLRenderer) : WebGLRenderer :=
  mkRenderer (alpha r) (antialias r) (clearColor r) (clearAlpha r)
             (pixelRatio r) w h (draws r).

Definition setClearColor (c : N) (a : R) (r : WebGLRenderer) : WebGLRenderer :=
  mkRenderer (alpha r) (antialias r) c a
             (pixelRatio r) (width r) (height r) (draws r).

(** [renderer.render(scene, camera)]: one draw call. *)
Definition render (r : WebGLRenderer) : WebGLRenderer :=
  mkRenderer (alpha r) (antialias r) (clearColor r) (clearAlpha r)
             (pixelRatio r) (width r) (height r) (S (draws r)).

Definition set_aspect (v : R) (c : PerspectiveCamera) : PerspectiveCamera :=
  mkCamera (fov c) v (near c) (far c) (cam_position c) (cam_target c)
           (projection_aspect c).

Definition updateProjectionMatrix (c : PerspectiveCamera) : PerspectiveCamera :=
  mkCamera (fov c) (aspect c) (near c) (far c) (cam_position c) (cam_target c)
           (aspect c).

Definition set_cam_position (v : Vector3) (c : PerspectiveCamera) : PerspectiveCamera :=
  mkCamera (fov c) (aspect c) (near c) (far c) v (cam_target c)
           (projection_aspect c).

Definition lookAt (v : Vector3) (c : PerspectiveCamera) : PerspectiveCamera :=
  mkCamera (fov c) (aspect c) (near c) (far c) (cam_position c) v
           (projection_aspect c).

End THREE.

Import THREE.

(** ** The host page *)

(** Of the canvas element only [style.display] is recorded; its [width],
    [height] and style size, which [renderer.setSize] sets, are kept with
    the renderer. *)
Record Canvas := mkCanvas { display : string }.

Record Element := mkElement { textContent : string; hidden : bool }.

Record Window := mkWindow {
  innerWidth : R;
  innerHeight : R;
  devicePixelRatio : option R     (* [None]: the property is undefined *)
}.

(** What [canvas.getContext(kind)] does. *)
Inductive ContextResult := ContextThrows | ContextNull | ContextObject.

Record Browser := mkBrowser {
  canvas : option Canvas;
  fallbackEl : option Element;
  window : Window;
  rafCounter : N;            (* the animation frame callback identifier *)
  rafPending : list N        (* handles of the scheduled frame callbacks *)
}.

(** [requestAnimationFrame(animate)]: the identifier is incremented and
    returned, the callback is queued under it.  A handle is never 0. *)
Definition requestAnimationFrame (b : Browser) : N * Browser :=
  let handle := N.succ (rafCounter b) in
  (handle,
   mkBrowser (canvas b) (fallbackEl b) (window b) handle
             (rafPending b ++ [handle])).

Definition cancelAnimationFrame (handle : N) (b : Browser) : Browser :=
  mkBrowser (canvas b) (fallbackEl b) (window b) (rafCounter b)
            (filter (fun h => negb (N.eqb h handle)) (rafPending b)).

Definition set_rafPending (l : list N) (b : Browser) : Browser :=
  mkBrowser (canvas b) (fallbackEl b) (window b) (rafCounter b) l.

Definition set_window (w : Window) (b : Browser) : Browser :=
  mkBrowser (canvas b) (fallbackEl b) w (rafCounter b) (rafPending b).

Definition set_canvas (c : option Canvas) (b : Browser) : Browser :=
  mkBrowser c (fallbackEl b) (window b) (rafCounter b) (rafPending b).

Definition set_fallbackEl (e : option Element) (b : Browser) : Browser :=
  mkBrowser (canvas b) e (window b) (rafCounter b) (rafPending b).

(** What the page and the device are when the script runs. *)
Record Env := mkEnv {
  env_canvas : option Canvas;          (* getElementById('solar3d') *)
  env_fallbackEl : option Element;     (* getElementById('webgl-fallback') *)
  ctx_webgl : ContextResult;           (* getContext('webgl') *)
  ctx_experimental : ContextResult;    (* getContext('experimental-webgl') *)
  env_window : Window;
  motionMatches : bool;                (* motionMedia.matches *)
  random : nat -> R;                   (* the n-th value of Math.random() *)
  textureApi : TextureApi;
  env_rafCounter : N
}.

(** JavaScript truthiness of the values the script tests. *)
Definition truthy_handle (n : N) : bool := negb (N.eqb n 0).

Definition truthy_string (s : string) : bool :=
  match s with EmptyString => false | _ => true end.

(** [v || 1] for a number that may be undefined. *)
Definition or_one (v : option R) : R :=
  match v with
  | None => 1
  | Some d => if Req_dec_T d 0 then 1 else d
  end.

(** ** The closure's variables *)

Record Planet := mkPlanet {
  mesh : nat;            (* index of the planet's mesh in the scene *)
  orbitRadius : R;
  speed : R;
  phase : R
}.

Record App := mkApp {
  renderer : WebGLRenderer;
  scene : Scene;
  camera : PerspectiveCamera;
  sun : nat;             (* index of the sun's mesh in the scene *)
  planets : list Planet;
  reduceMotion : bool;
  rafId : N
}.

(** [app = None]: the closure returned before it built anything, and no
    listener is registered. *)
Record World := mkWorld { browser : Browser; app : option App }.

Definition set_renderer (r : WebGLRenderer) (a : App) : App :=
  mkApp r (scene a) (camera a) (sun a) (planets a) (reduceMotion a) (rafId a).

Definition set_scene (s : Scene) (a : App) : App :=
  mkApp (renderer a) s (camera a) (sun a) (planets a) (reduceMotion a) (rafId a).

Definition set_camera (c : PerspectiveCamera) (a : App) : App :=
  mkApp (renderer a) (scene a) c (sun a) (planets a) (reduceMotion a) (rafId a).

Definition set_reduceMotion (v : bool) (a : App) : App :=
  mkApp (renderer a) (scene a) (camera a) (sun a) (planets a) v (rafId a).

Definition set_rafId (v : N) (a : App) : App :=
  mkApp (renderer a) (scene a) (camera a) (sun a) (planets a) (reduceMotion a) v.

(** ** The script *)

Definition unavailable_message : string :=
  "3D background isn't available on this device."%string.

Definition showFallback (message : string) (b : Browser) : Browser :=
  match fallbackEl b with
  | None => b
  | Some el =>
      let el := if truthy_string message
                then mkElement message (hidden el) else el in
      set_fallbackEl (Some (mkElement (textContent el) false)) b
  end.

(** [getContext('webgl') || getContext('experimental-webgl')], [!!gl], and
    [false] when either call throws. *)
Definition isWebGLAvailable (env : Env) : bool :=
  match ctx_webgl env with
  | ContextThrows => false
  | ContextObject => true
  | ContextNull =>
      match ctx_experimental env with
      | ContextThrows => false
      | ContextObject => true
      | ContextNull => false
      end
  end.

Definition applySize (w : Window) (rc : WebGLRenderer * PerspectiveCamera)
  : WebGLRenderer * PerspectiveCamera :=
  let (renderer, camera) := rc in
  let dpr := Rmin (or_one (devicePixelRatio w)) 2 in
  let renderer := setPixelRatio dpr renderer in
  let renderer := setSize (innerWidth w) (innerHeight w) renderer in
  let camera := set_aspect (innerWidth w / innerHeight w) camera in
  let camera := updateProjectionMatrix camera in
  (renderer, camera).

Definition createRadialTexture (api : TextureApi) (color1 color2 : string)
  (size : N) : Texture :=
  let mgmt := match api with
              | HasColorSpace => SRGBColorSpace
              | HasEncoding => sRGBEncoding
              | HasNeither => Unmanaged
              end in
  mkTexture color1 color2 size mgmt 4.

(** Returns the scene and the reference to the sun's mesh. *)
Definition addSun (api : TextureApi) (scene : Scene) : Scene * nat :=
  let sunGeometry := SphereGeometry 5 32 32 in
  let sunTexture := createRadialTexture api "#fff200" "#ff9800" 512 in
  let sunMaterial := MeshBasicMaterial_map sunTexture in
  let sun := List.length scene in
  let scene := scene ++ [MeshObj (newMesh sunGeometry sunMaterial)] in
  let sunGlow := PointLight 0xfff200 2 100 in
  let scene := scene ++ [sunGlow] in
  (scene, sun).

(** name, color1, color2, orbitRadius, size, speed, hasRing *)
Definition Descriptor : Type :=
  (string * string * string * R * R * R * bool)%type.

Definition planetData : list Descriptor :=
  [ ("Mercury", "#b2b2b2", "#6e6e6e",  9, 0.7, 0.018, false);
    ("Venus",   "#e0c16c", "#bfa24d", 12, 1.1, 0.014, false);
    ("Earth",   "#3a6ea5", "#1b3c5d", 16, 1.2, 0.012, false);
    ("Mars",    "#b5532a", "#7a2e13", 20, 1.0, 0.010, false);
    ("Jupiter", "#e0a96d", "#b57c3a", 26, 2.5, 0.008, false);
    ("Saturn",  "#d2c295", "#b3a178", 33, 2.2, 0.007, true);
    ("Uranus",  "#7ad7f0", "#3a8ca5", 39, 1.7, 0.006, true);
    ("Neptune", "#4062a7", "#22345d", 45, 1.7, 0.005, false) ]%string.

Definition d_name (d : Descriptor) : string :=
  let '(name, _, _, _, _, _, _) := d in name.

Definition d_orbitRadius (d : Descriptor) : R :=
  let '(_, _, _, orbitRadius, _, _, _) := d in orbitRadius.

Definition d_speed (d : Descriptor) : R :=
  let '(_, _, _, _, _, speed, _) := d in speed.

Definition d_hasRing (d : Descriptor) : bool :=
  let '(_, _, _, _, _, _, hasRing) := d in hasRing.

(** The body of the loop of [addPlanets]. *)
Definition addPlanet (api : TextureApi) (random : nat -> R)
  (acc : Scene * list Planet) (d : Descriptor) : Scene * list Planet :=
  let (scene, planets) := acc in
  let '(name, color1, color2, orbitRadius, size, speed, hasRing) := d in
  let geometry := SphereGeometry size 24 24 in
  let texture := createRadialTexture api color1 color2 256 in
  let material := MeshBasicMaterial_map texture in
  let mesh := List.length scene in
  let scene := scene ++ [MeshObj (newMesh geometry material)] in
  let scene :=
    if hasRing then
      let ringGeometry := RingGeometry (size * 1.4) (size * 2.2) 64 in
      let ringMaterial :=
        mkMaterial None
                   (if String.eqb name "Saturn" then 0xd2c295 else 0x8fc5e7)%N
                   true true 0.6 in
      let ring := newMesh ringGeometry ringMaterial in
      let ring := set_rotation_x (PI / 2) ring in
      update_mesh mesh (add ring) scene
    else scene in
  (scene,
   planets ++ [mkPlanet mesh orbitRadius speed
                        (random (List.length planets) * PI * 2)]).

Definition addPlanets (api : TextureApi) (random : nat -> R) (scene : Scene)
  : Scene * list Planet :=
  fold_left (addPlanet api random) planetData (scene, []).

Definition addOrbitLine (scene : Scene) (d : Descriptor) : Scene :=
  let '(_, _, _, orbitRadius, _, _, _) := d in
  let orbitGeometry := RingGeometry (orbitRadius - 0.01) (orbitRadius + 0.01) 64 in
  let orbitMaterial := mkMaterial None 0xffffff true true 0.08 in
  let orbit := newMesh orbitGeometry orbitMaterial in
  let orbit := set_rotation_x (PI / 2) orbit in
  scene ++ [MeshObj orbit].

Definition addOrbitLines (scene : Scene) : Scene :=
  fold_left addOrbitLine planetData scene.

(** The body of [planets.forEach] in [updatePositions]. *)
Definition movePlanet (timeMs : R) (scene : Scene) (p : Planet) : Scene :=
  let t := timeMs * speed p * 0.5e-3 + phase p in
  let scene := update_mesh (mesh p) (set_position_x (cos t * orbitRadius p)) scene in
  update_mesh (mesh p) (set_position_z (sin t * orbitRadius p)) scene.

Definition updatePositions (timeMs : R) (a : App) : App :=
  let scene := fold_left (movePlanet timeMs) (planets a) (scene a) in
  let scene :=
    update_mesh (sun a) (fun m => set_rotation_y (y (rotation m) + 0.002) m) scene in
  set_scene scene a.

Definition renderFrame (a : App) : App :=
  set_renderer (render (renderer a)) a.

(** [animate], called by the browser with [performance.now() = now]. *)
Definition animate (now : R) (s : App * Browser) : App * Browser :=
  let (a, b) := s in
  if reduceMotion a then s
  else
    let (handle, b) := requestAnimationFrame b in
    let a := set_rafId handle a in
    let a := updatePositions now a in
    let a := renderFrame a in
    (a, b).

Definition startAnimation (s : App * Browser) : App * Browser :=
  let (a, b) := s in
  if negb (truthy_handle (rafId a)) && negb (reduceMotion a) then
    let (handle, b) := requestAnimationFrame b in
    (set_rafId handle a, b)
  else s.

Definition stopAnimation (s : App * Browser) : App * Browser :=
  let (a, b) := s in
  let b := if truthy_handle (rafId a)
           then cancelAnimationFrame (rafId a) b else b in
  let a := set_rafId 0 a in
  let a := renderFrame a in
  (a, b).

(** The listener of the motion preference's [change] event. *)
Definition onMotionChange (matches : bool) (s : App * Browser) : App * Browser :=
  let (a, b) := s in
  let a := set_reduceMotion matches a in
  if reduceMotion a then stopAnimation (a, b) else startAnimation (a, b).

(** The listener of the window's [resize] event. *)
Definition onResize (s : App * Browser) : App * Browser :=
  let (a, b) := s in
  let (r, c) := applySize (window b) (renderer a, camera a) in
  let a := set_camera c (set_renderer r a) in
  let a := if reduceMotion a then renderFrame a else a in
  (a, b).

Definition close (s : App * Browser) : World :=
  mkWorld (snd s) (Some (fst s)).

(** The whole closure, run once when the page loads. *)
Definition startup (env : Env) : World :=
  let b := mkBrowser (env_canvas env) (env_fallbackEl env) (env_window env)
                     (env_rafCounter env) [] in
  match canvas b with
  | None => mkWorld b None
  | Some _ =>
      if negb (isWebGLAvailable env) then
        let b := set_canvas (Some (mkCanvas "none")) b in
        let b := showFallback unavailable_message b in
        mkWorld b None
      else
        let renderer := mkRenderer true true 0 1 1 0 0 0 in
        let scene : Scene := [] in
        let camera :=
          mkCamera 60 (innerWidth (window b) / innerHeight (window b)) 0.1 1000
                   origin origin
                   (innerWidth (window b) / innerHeight (window b)) in
        let renderer := setClearColor 0x000000 0 renderer in
        let (renderer, camera) := applySize (window b) (renderer, camera) in
        let camera := set_cam_position (mkVector3 0 25 60) camera in
        let camera := lookAt (mkVector3 0 0 0) camera in
        let scene := scene ++ [AmbientLight 0xffffff 1.0] in
        let (scene, sun) := addSun (textureApi env) scene in
        let (scene, planets) := addPlanets (textureApi env) (random env) scene in
        let scene := addOrbitLines scene in
        let reduceMotion := motionMatches env in
        let rafId := 0%N in
        let a := mkApp renderer scene camera sun planets reduceMotion rafId in
        if reduceMotion then close (renderFrame (updatePositions 0 a), b)
        else close (startAnimation (a, b))
  end.

(** ** Events after startup *)

Inductive Event :=
| Frame (now : R)                       (* the browser runs the frame callbacks *)
| MotionChange (matches : bool)         (* the motion preference changes *)
| Resize (w : Window).                  (* the viewport changes *)

(** Running the animation frame callbacks: the queue is emptied, then every
    callback that was in it is invoked.  The script only ever queues
    [animate]. *)
Definition runFrameCallbacks (now : R) (s : App * Browser) : App * Browser :=
  let (a, b) := s in
  let callbacks := rafPending b in
  let b := set_rafPending [] b in
  fold_left (fun s _ => animate now s) callbacks (a, b).

Definition step (w : World) (e : Event) : World :=
  match app w with
  | None =>
      (* no listener and no callback was registered *)
      match e with
      | Frame _ => mkWorld (set_rafPending [] (browser w)) None
      | MotionChange _ => w
      | Resize win => mkWorld (set_window win (browser w)) None
      end
  | Some a =>
      match e with
      | Frame now => close (runFrameCallbacks now (a, browser w))
      | MotionChange matches => close (onMotionChange matches (a, browser w))
      | Resize win => close (onResize (a, set_window win (browser w)))
      end
  end.

Definition run (w : World) (events : list Event) : World :=
  fold_left step events w.

(** Observations used in the statements. *)
Definition pending (w : World) : list N := rafPending (browser w).

Definition draw_count (w : World) : nat :=
  match app w with
  | None => O
  | Some a => draws (renderer a)
  end.

Definition scene_objects (w : World) : Scene :=
  match app w with
  | None => []
  | Some a => scene a
  end.

(** ** Observations, invariants and example pages *)

(** A planet carries a ring when its mesh in the scene has a child. *)
Definition has_ring_mesh (scene : Scene) (p : Planet) : bool :=
  match mesh_at scene (mesh p) with
  | Some m => negb (Nat.eqb (List.length (children m)) 0)
  | None => false
  end.

Definition ringed_planets (a : App) : list Planet :=
  filter (has_ring_mesh (scene a)) (planets a).

(** The scene and the planet entries that [startup] builds before it looks
    at the motion preference. *)
Definition built_scene (api : TextureApi) (random : nat -> R) : Scene * list Planet :=
  let (scene, _) := addSun api [AmbientLight 0xffffff 1.0] in
  let (scene, planets) := addPlanets api random scene in
  (addOrbitLines scene, planets).

Definition sun_ref : nat := 1.

Definition planet_refs : list nat := [3; 4; 5; 6; 7; 8; 9; 10]%nat.

(** The angle of a planet at a time, and where [movePlanet] puts its mesh. *)
Definition angle (timeMs : R) (p : Planet) : R :=
  timeMs * speed p * 0.5e-3 + phase p.

Definition placed (timeMs : R) (p : Planet) (m : Mesh) : Mesh :=
  set_position_z (sin (angle timeMs p) * orbitRadius p)
    (set_position_x (cos (angle timeMs p) * orbitRadius p) m).

(** Observations on the moving parts of the scene. *)
Definition planet_position (a : App) (p : Planet) : option Vector3 :=
  option_map position (mesh_at (scene a) (mesh p)).

Definition sun_rotation_y (a : App) : option R :=
  option_map (fun m => y (rotation m)) (mesh_at (scene a) (sun a)).

(** What [startup] establishes about the references the closure keeps, and
    every later step preserves. *)
Record scene_wf (a : App) : Prop := {
  wf_sun : sun a = sun_ref;
  wf_refs : map mesh (planets a) = planet_refs;
  wf_sun_mesh : exists m, mesh_at (scene a) (sun a) = Some m;
  wf_planet_mesh :
    Forall (fun p => exists m, mesh_at (scene a) (mesh p) = Some m
                               /\ y (position m) = 0) (planets a);
  wf_static :
    Forall2 (fun d p => orbitRadius p = d_orbitRadius d /\ speed p = d_speed d)
            planetData (planets a)
}.

Definition initial_browser (env : Env) : Browser :=
  mkBrowser (env_canvas env) (env_fallbackEl env) (env_window env)
            (env_rafCounter env) [].

(** The closure's variables when [startup] reaches its motion branch. *)
Definition initial_app (env : Env) : App :=
  let win := env_window env in
  let rc :=
    applySize win
      (setClearColor 0 0 (mkRenderer true true 0 1 1 0 0 0),
       mkCamera 60 (innerWidth win / innerHeight win) 0.1 1000 origin origin
                (innerWidth win / innerHeight win)) in
  let built := built_scene (textureApi env) (random env) in
  mkApp (fst rc) (fst built)
        (lookAt (mkVector3 0 0 0) (set_cam_position (mkVector3 0 25 60) (snd rc)))
        sun_ref (snd built) (motionMatches env) 0.

(** PAUSED: no handle and nothing queued.  RUNNING: exactly the callback
    whose handle is in [rafId] is queued. *)
Definition loop_inv (w : World) : Prop :=
  match app w with
  | None => pending w = []
  | Some a =>
      if reduceMotion a
      then rafId a = 0%N /\ pending w = []
      else rafId a <> 0%N /\ pending w = [rafId a]
  end.

Definition world_inv (w : World) : Prop :=
  loop_inv w /\ forall a, app w = Some a -> scene_wf a.

Definition on_orbit (timeMs : R) (p : Planet) : Vector3 :=
  mkVector3 (cos (angle timeMs p) * orbitRadius p) 0
            (sin (angle timeMs p) * orbitRadius p).

(** The app after a sequence of calls of [updatePositions]. *)
Definition updateMany (times : list R) (a : App) : App :=
  fold_left (fun a t => updatePositions t a) times a.

Definition example_window : Window := mkWindow 800 600 (Some 3).

(** A page with both elements on a device with WebGL. *)
Definition example_env (reduced : bool) : Env :=
  mkEnv (Some (mkCanvas EmptyString)) (Some (mkElement EmptyString true))
        ContextObject ContextObject example_window reduced
        (fun _ => 0) HasColorSpace 0.

(** The same page on a device where no context can be acquired. *)
Definition example_env_no_webgl : Env :=
  mkEnv (Some (mkCanvas EmptyString)) (Some (mkElement EmptyString true))
        ContextNull ContextNull example_window false
        (fun _ => 0) HasColorSpace 0.

(** How many children the mesh of each planet has, in the order of
    [planetData]. *)
Definition ring_counts (a : App) : list (option nat) :=
  map (fun p => option_map (fun m => List.length (children m))
                           (mesh_at (scene a) (mesh p)))
      (planets a).

(** Neither [getContext] call yields a context: the first throws, or it
    returns null and the second throws or returns null. *)
Definition acquisition_fails (env : Env) : Prop :=
  ctx_webgl env = ContextThrows \/
  (ctx_webgl env = ContextNull /\ ctx_experimental env <> ContextObject).

(** The implication of C10 on one state. *)
Definition paused_has_no_handle (w : World) : Prop :=
  forall a, app w = Some a -> reduceMotion a = true -> rafId a = 0%N.

(** C3 as stated, on a state [w]: after two RUNNING->PAUSED transitions in a
    row nothing is queued, one draw was added in total, and the second
    transition changed nothing. *)
Definition second_stop_is_noop (w : World) : Prop :=
  let w1 := step w (MotionChange true) in
  let w2 := step w1 (MotionChange true) in
  pending w2 = [] /\ draw_count w2 = S (draw_count w) /\ w2 = w1.

(** ** The arithmetic of [updatePositions] in binary64 *)

Module Double.

Local Open Scope float_scope.

(** [timeMs * p.speed * 0.5e-3 + p.phase] *)
Definition angle (timeMs speed phase : float) : float :=
  timeMs * speed * 0.5e-3 + phase.




(** [sun.rotation.y += 0.002] *)
Definition spin (rotation_y : float) : float := rotation_y + 0.002.

(** The doubles within two units in the last place of [v]. *)
Definition near (v : float) : list float :=
  [next_down (next_down v); next_down v; v; next_up v; next_up (next_up v)].



End Double.

(** ** Further observations *)

(** The motion preference after a sequence of events: the [matches] of the
    last change event, or the initial one. *)
Fixpoint last_matches (initial : bool) (events : list Event) : bool :=
  match events with
  | [] => initial
  | MotionChange matches :: rest => last_matches matches rest
  | _ :: rest => last_matches initial rest
  end.

(** The window metrics after a sequence of events: those of the last resize
    event, or the initial ones. *)
Fixpoint last_window (initial : Window) (events : list Event) : Window :=
  match events with
  | [] => initial
  | Resize win :: rest => last_window win rest
  | _ :: rest => last_window initial rest
  end.

(** Which [getContext] outcomes give a context. *)
Definition acquisition_succeeds (env : Env) : Prop :=
  ctx_webgl env = ContextObject \/
  (ctx_webgl env = ContextNull /\ ctx_experimental env = ContextObject).

Definition same_elements (b b' : Browser) : Prop :=
  canvas b' = canvas b /\ fallbackEl b' = fallbackEl b.

(** What [updatePositions] leaves alone in a planet's mesh, and in the
    sun's. *)
Definition planet_static (m : Mesh) :=
  (geometry m, material m, children m, rotation m, y (position m)).

Definition sun_static (m : Mesh) :=
  (geometry m, material m, children m, position m,
   x (rotation m), z (rotation m)).

(** A scene that differs from the scene [built] at most in the [x] and [z]
    of the planets' positions and in the sun's rotation about [y]. *)
Record scene_static (built sc : Scene) : Prop := {
  st_length : List.length sc = List.length built;
  st_fixed : forall i, i <> sun_ref -> ~ In i planet_refs ->
                       nth_error sc i = nth_error built i;
  st_planet : forall i, In i planet_refs ->
                        option_map planet_static (mesh_at sc i)
                        = option_map planet_static (mesh_at built i);
  st_sun : option_map sun_static (mesh_at sc sun_ref)
           = option_map sun_static (mesh_at built sun_ref)
}.

(** The renderer and the camera are sized for the window [win]. *)
Record viewport_ok (win : Window) (a : App) : Prop := {
  vp_ratio : pixelRatio (renderer a) = Rmin (or_one (devicePixelRatio win)) 2;
  vp_width : width (renderer a) = innerWidth win;
  vp_height : height (renderer a) = innerHeight win;
  vp_aspect : aspect (camera a) = innerWidth win / innerHeight win;
  vp_projection : projection_aspect (camera a) = innerWidth win / innerHeight win
}.

(** What the setup code fixes once. *)
Record setup_fixed (a : App) : Prop := {
  sf_fov : fov (camera a) = 60;
  sf_near : near (camera a) = 0.1;
  sf_far : far (camera a) = 1000;
  sf_position : cam_position (camera a) = mkVector3 0 25 60;
  sf_target : cam_target (camera a) = mkVector3 0 0 0;
  sf_alpha : alpha (renderer a) = true;
  sf_antialias : antialias (renderer a) = true;
  sf_clearColor : clearColor (renderer a) = 0%N;
  sf_clearAlpha : clearAlpha (renderer a) = 0
}.

(** What holds of the closure's variables from startup on, on a page
    described by [env]. *)
Record steady (env : Env) (s : App * Browser) : Prop := {
  sd_planets : planets (fst s) = snd (built_scene (textureApi env) (random env));
  sd_sun : sun (fst s) = sun_ref;
  sd_scene : scene_static (fst (built_scene (textureApi env) (random env)))
                          (scene (fst s));
  sd_viewport : viewport_ok (window (snd s)) (fst s);
  sd_setup : setup_fixed (fst s);
  sd_handle : (rafId (fst s) <= rafCounter (snd s))%N
}.

Definition world_steady (env : Env) (w : World) : Prop :=
  forall a, app w = Some a -> steady env (a, browser w).

Definition d_color1 (d : Descriptor) : string :=
  let '(_, color1, _, _, _, _, _) := d in color1.

Definition d_color2 (d : Descriptor) : string :=
  let '(_, _, color2, _, _, _, _) := d in color2.

Definition d_size (d : Descriptor) : R :=
  let '(_, _, _, _, size, _, _) := d in size.

(** ** Example states, evaluated *)

(** The example page right after startup, animation allowed. *)
Definition running0 : World :=
  Eval cbv -[Rplus Rmult Rminus Rdiv Rinv Ropp IZR Q2R cos sin PI Rmin Req_dec_T INR]
  in startup (example_env false).

Definition running0_app : App :=
  Eval cbv -[Rplus Rmult Rminus Rdiv Rinv Ropp IZR Q2R cos sin PI Rmin Req_dec_T INR]
  in match app running0 with
     | Some a => a
     | None => initial_app (example_env true)
     end.

(** The example page right after startup, reduced motion. *)
Definition paused0 : World :=
  Eval cbv -[Rplus Rmult Rminus Rdiv Rinv Ropp IZR Q2R cos sin PI Rmin Req_dec_T INR]
  in startup (example_env true).

Definition paused0_app : App :=
  Eval cbv -[Rplus Rmult Rminus Rdiv Rinv Ropp IZR Q2R cos sin PI Rmin Req_dec_T INR]
  in match app paused0 with
     | Some a => a
     | None => initial_app (example_env true)
     end.

(** The running page after its first frame. *)
Definition running1 : World :=
  Eval cbv -[Rplus Rmult Rminus Rdiv Rinv Ropp IZR Q2R cos sin PI Rmin Req_dec_T INR]
  in run (startup (example_env false)) [Frame 16].

Definition running1_app : App :=
  Eval cbv -[Rplus Rmult Rminus Rdiv Rinv Ropp IZR Q2R cos sin PI Rmin Req_dec_T INR]
  in match app running1 with
     | Some a => a
     | None => initial_app (example_env true)
     end.

(** The running page after a frame and a change to reduced motion. *)
Definition paused2 : World :=
  Eval cbv -[Rplus Rmult Rminus Rdiv Rinv Ropp IZR Q2R cos sin PI Rmin Req_dec_T INR]
  in run (startup (example_env false)) [Frame 16; MotionChange true].

Definition paused2_app : App :=
  Eval cbv -[Rplus Rmult Rminus Rdiv Rinv Ropp IZR Q2R cos sin PI Rmin Req_dec_T INR]
  in match app paused2 with
     | Some a => a
     | None => initial_app (example_env true)
     end.

(** The paused page after a resize. *)
Definition paused_resized : World :=
  Eval cbv -[Rplus Rmult Rminus Rdiv Rinv Ropp IZR Q2R cos sin PI Rmin Req_dec_T INR]
  in run (startup (example_env true)) [Resize example_window].

Definition paused_resized_app : App :=
  Eval cbv -[Rplus Rmult Rminus Rdiv Rinv Ropp IZR Q2R cos sin PI Rmin Req_dec_T INR]
  in match app paused_resized with
     | Some a => a
     | None => initial_app (example_env true)
     end.

(** The running page after a resize to a small window without pixel ratio. *)
Definition running_small : World :=
  Eval cbv -[Rplus Rmult Rminus Rdiv Rinv Ropp IZR Q2R cos sin PI Rmin Req_dec_T INR]
  in run (startup (example_env false)) [Resize (mkWindow 400 300 None)].

Definition running_small_app : App :=
  Eval cbv -[Rplus Rmult Rminus Rdiv Rinv Ropp IZR Q2R cos sin PI Rmin Req_dec_T INR]
  in match app running_small with
     | Some a => a
     | None => initial_app (example_env true)
     end.

(** The [n]-th planet entry of an example state. *)
Definition planet_of (a : App) (n : nat) : Planet :=
  nth n (planets a) (mkPlanet 0 0 0 0).

(** * Lemmas and theorems *)

(** ** The example states are the ones the script reaches *)

Lemma running0_eq : startup (example_env false) = running0.
Proof. reflexivity. Qed.

Lemma running1_eq : run (startup (example_env false)) [Frame 16] = running1.
Proof. reflexivity. Qed.

Lemma running0_live : app (startup (example_env false)) = Some running0_app.
Proof. reflexivity. Qed.

Lemma paused0_live : app (startup (example_env true)) = Some paused0_app.
Proof. reflexivity. Qed.

Lemma running1_live :
  app (run (startup (example_env false)) [Frame 16]) = Some running1_app.
Proof. reflexivity. Qed.

Lemma paused2_live :
  app (run (startup (example_env false)) [Frame 16; MotionChange true])
  = Some paused2_app.
Proof. reflexivity. Qed.

Lemma paused_resized_live :
  app (run (startup (example_env true)) [Resize example_window])
  = Some paused_resized_app.
Proof. reflexivity. Qed.

Lemma running_small_live :
  app (run (startup (example_env false)) [Resize (mkWindow 400 300 None)])
  = Some running_small_app.
Proof. reflexivity. Qed.

(** ** Scene construction *)

Lemma built_scene_refs api random :
  map mesh (snd (built_scene api random)) = planet_refs.
Proof. reflexivity. Qed.

Lemma built_scene_length api random :
  List.length (fst (built_scene api random)) = 19%nat.
Proof. reflexivity. Qed.

(** ** The scene as a store: reading after writing *)

Section Store.

Variable f : Mesh -> Mesh.

Lemma update_mesh_length i (sc : Scene) :
  List.length (update_mesh i f sc) = List.length sc.
Proof.
  revert i; induction sc as [|o rest IH]; intros [|j]; simpl; auto.
  - destruct o; reflexivity.
  - destruct o; simpl; rewrite IH; reflexivity.
Qed.

Lemma mesh_at_update_same i (sc : Scene) m :
  mesh_at sc i = Some m -> mesh_at (update_mesh i f sc) i = Some (f m).
Proof.
  unfold mesh_at; revert i; induction sc as [|o rest IH]; intros [|j]; simpl;
    try discriminate.
  - destruct o; try discriminate. intros [= ->]. reflexivity.
  - intros H. destruct o; simpl; apply IH; exact H.
Qed.

Lemma mesh_at_update_other i j (sc : Scene) :
  i <> j -> mesh_at (update_mesh i f sc) j = mesh_at sc j.
Proof.
  unfold mesh_at; revert i j; induction sc as [|o rest IH]; intros [|i] [|j] Hij;
    simpl; try reflexivity; try congruence.
  - destruct o; reflexivity.
  - destruct o; reflexivity.
  - assert (i <> j) by congruence.
    destruct o; simpl; apply IH; assumption.
Qed.

End Store.

Lemma movePlanet_same t sc p m :
  mesh_at sc (mesh p) = Some m ->
  mesh_at (movePlanet t sc p) (mesh p) = Some (placed t p m).
Proof.
  intros H. unfold movePlanet, placed, angle.
  apply mesh_at_update_same, mesh_at_update_same, H.
Qed.

Lemma movePlanet_other t sc p j :
  mesh p <> j -> mesh_at (movePlanet t sc p) j = mesh_at sc j.
Proof.
  intros H. unfold movePlanet.
  rewrite !mesh_at_update_other by exact H. reflexivity.
Qed.

Lemma move_all_other t ps : forall sc j,
  ~ In j (map mesh ps) ->
  mesh_at (fold_left (movePlanet t) ps sc) j = mesh_at sc j.
Proof.
  induction ps as [|q ps IH]; intros sc j Hj; simpl in *.
  - reflexivity.
  - rewrite IH by tauto. apply movePlanet_other. tauto.
Qed.

Lemma move_all_same t ps : forall sc p m,
  NoDup (map mesh ps) -> In p ps ->
  mesh_at sc (mesh p) = Some m ->
  mesh_at (fold_left (movePlanet t) ps sc) (mesh p) = Some (placed t p m).
Proof.
  induction ps as [|q ps IH]; intros sc p m Hnd Hin Hm; simpl in *.
  - contradiction.
  - inversion Hnd as [|? ? Hq Hnd']; subst.
    destruct Hin as [-> | Hin].
    + rewrite move_all_other by exact Hq.
      apply movePlanet_same, Hm.
    + apply IH; auto.
      rewrite movePlanet_other; [exact Hm|].
      intros E. apply Hq. rewrite E. apply in_map, Hin.
Qed.

Lemma planet_refs_NoDup : NoDup planet_refs.
Proof.
  unfold planet_refs.
  repeat (constructor; [simpl; intuition discriminate|]). constructor.
Qed.

Lemma sun_not_planet : ~ In sun_ref planet_refs.
Proof. unfold sun_ref, planet_refs; simpl; intuition discriminate. Qed.

Lemma updatePositions_planet t a p m :
  scene_wf a -> In p (planets a) ->
  mesh_at (scene a) (mesh p) = Some m ->
  mesh_at (scene (updatePositions t a)) (mesh p) = Some (placed t p m).
Proof.
  intros W Hin Hm. unfold updatePositions; simpl.
  rewrite mesh_at_update_other.
  - apply move_all_same; auto. rewrite (wf_refs a W). apply planet_refs_NoDup.
  - rewrite (wf_sun a W). intros E. apply sun_not_planet.
    rewrite E, <- (wf_refs a W). apply in_map, Hin.
Qed.

Lemma updatePositions_sun t a m :
  scene_wf a ->
  mesh_at (scene a) (sun a) = Some m ->
  mesh_at (scene (updatePositions t a)) (sun a)
  = Some (set_rotation_y (y (rotation m) + 0.002) m).
Proof.
  intros W Hm. unfold updatePositions; simpl.
  apply (mesh_at_update_same (fun m => set_rotation_y (y (rotation m) + 0.002) m)).
  rewrite move_all_other; [exact Hm|].
  rewrite (wf_sun a W), (wf_refs a W). apply sun_not_planet.
Qed.

Lemma updatePositions_wf t a : scene_wf a -> scene_wf (updatePositions t a).
Proof.
  intros W. constructor.
  - exact (wf_sun a W).
  - exact (wf_refs a W).
  - destruct (wf_sun_mesh a W) as [m Hm].
    eexists. apply (updatePositions_sun t a m W Hm).
  - apply Forall_forall. intros p Hin.
    pose proof (wf_planet_mesh a W) as HF.
    rewrite Forall_forall in HF. destruct (HF p Hin) as [m [Hm Hy]].
    exists (placed t p m). split.
    + apply updatePositions_planet; assumption.
    + exact Hy.
  - exact (wf_static a W).
Qed.

(** ** What [startup] returns *)

Lemma startup_no_canvas env :
  env_canvas env = None -> startup env = mkWorld (initial_browser env) None.
Proof.
  intros H. unfold startup, initial_browser; simpl. rewrite H. reflexivity.
Qed.

Lemma startup_unavailable env c :
  env_canvas env = Some c -> isWebGLAvailable env = false ->
  startup env =
  mkWorld (showFallback unavailable_message
             (set_canvas (Some (mkCanvas "none")) (initial_browser env))) None.
Proof.
  intros H G. unfold startup, initial_browser; simpl. rewrite H, G. reflexivity.
Qed.

Lemma startup_available env c :
  env_canvas env = Some c -> isWebGLAvailable env = true ->
  startup env =
  if motionMatches env
  then close (renderFrame (updatePositions 0 (initial_app env)), initial_browser env)
  else close (startAnimation (initial_app env, initial_browser env)).
Proof.
  intros H G. unfold startup, initial_browser; simpl. rewrite H, G. reflexivity.
Qed.

Lemma initial_app_wf env : scene_wf (initial_app env).
Proof.
  constructor.
  - reflexivity.
  - reflexivity.
  - eexists; reflexivity.
  - repeat constructor; eexists; split; reflexivity.
  - repeat constructor.
Qed.

(** ** The animation loop's invariant *)

Lemma truthy_handle_false n : truthy_handle n = false <-> n = 0%N.
Proof.
  unfold truthy_handle. rewrite negb_false_iff. apply N.eqb_eq.
Qed.

Lemma truthy_handle_true n : truthy_handle n = true <-> n <> 0%N.
Proof.
  unfold truthy_handle. rewrite negb_true_iff. apply N.eqb_neq.
Qed.

Lemma handle_nonzero b : fst (requestAnimationFrame b) <> 0%N.
Proof. simpl. apply N.neq_succ_0. Qed.

Lemma scene_wf_ext a a' :
  scene a' = scene a -> sun a' = sun a -> planets a' = planets a ->
  scene_wf a -> scene_wf a'.
Proof.
  intros Hs Hu Hp W. destruct W as [W1 W2 W3 W4 W5].
  constructor; rewrite ?Hs, ?Hu, ?Hp; assumption.
Qed.

Lemma startup_inv env : world_inv (startup env).
Proof.
  destruct (env_canvas env) as [c|] eqn:Hc.
  2:{ rewrite (startup_no_canvas env Hc). split; [reflexivity|discriminate]. }
  destruct (isWebGLAvailable env) eqn:G.
  2:{ rewrite (startup_unavailable env c Hc G). split; [|discriminate].
      unfold loop_inv, pending, showFallback; simpl.
      destruct (env_fallbackEl env); reflexivity. }
  rewrite (startup_available env c Hc G).
  pose proof (initial_app_wf env) as W.
  destruct (motionMatches env) eqn:M.
  - split.
    + unfold loop_inv; simpl. rewrite M. split; reflexivity.
    + intros a [= <-].
      apply (scene_wf_ext (updatePositions 0 (initial_app env))); try reflexivity.
      apply updatePositions_wf, W.
  - split.
    + unfold loop_inv; simpl. rewrite M. simpl. rewrite M.
      split; [apply N.neq_succ_0 | reflexivity].
    + intros a. simpl. rewrite M. simpl. intros [= <-].
      apply (scene_wf_ext (initial_app env)); try reflexivity. exact W.
Qed.

Lemma animate_running now a b :
  reduceMotion a = false ->
  animate now (a, b) =
  (renderFrame (updatePositions now (set_rafId (N.succ (rafCounter b)) a)),
   snd (requestAnimationFrame b)).
Proof. intros H. unfold animate. rewrite H. reflexivity. Qed.

Lemma animate_paused now a b :
  reduceMotion a = true -> animate now (a, b) = (a, b).
Proof. intros H. unfold animate. rewrite H. reflexivity. Qed.

Lemma step_inv w e : world_inv w -> world_inv (step w e).
Proof.
  intros [L W]. unfold step. destruct w as [b [a|]]; simpl in *.
  2:{ destruct e; (split; [|discriminate]); unfold loop_inv, pending in *;
      simpl in *; auto. }
  specialize (W a eq_refl). unfold loop_inv, pending in L; simpl in L.
  destruct e as [now | matches | win].
  - (* Frame *)
    unfold runFrameCallbacks.
    destruct (reduceMotion a) eqn:M; destruct L as [L1 L2]; rewrite L2;
      cbn [fold_left].
    + split; [|intros ? [= <-]; exact W].
      unfold loop_inv, pending; simpl. rewrite M. auto.
    + rewrite animate_running by exact M. split.
      * unfold loop_inv, pending; simpl. rewrite M.
        split; [apply N.neq_succ_0 | reflexivity].
      * intros ? [= <-].
        apply (scene_wf_ext (updatePositions now a)); try reflexivity.
        apply updatePositions_wf, W.
  - (* MotionChange *)
    unfold onMotionChange; simpl. destruct matches.
    + split; [|intros ? [= <-]; apply (scene_wf_ext a); auto].
      unfold loop_inv, pending; simpl. split; [reflexivity|].
      destruct (reduceMotion a); destruct L as [L1 L2].
      * rewrite L1; simpl. exact L2.
      * apply truthy_handle_true in L1. rewrite L1; simpl.
        rewrite L2; simpl. rewrite N.eqb_refl. reflexivity.
    + unfold startAnimation; simpl.
      destruct (reduceMotion a); destruct L as [L1 L2].
      * rewrite L1; simpl.
        split; [|intros ? [= <-]; apply (scene_wf_ext a); auto].
        unfold loop_inv, pending; simpl. rewrite L2.
        split; [apply N.neq_succ_0 | reflexivity].
      * apply truthy_handle_true in L1 as T. rewrite T; simpl.
        split; [|intros ? [= <-]; apply (scene_wf_ext a); auto].
        unfold loop_inv, pending; simpl. auto.
  - (* Resize *)
    unfold onResize, applySize; simpl.
    split.
    + unfold loop_inv, pending; simpl.
      destruct (reduceMotion a) eqn:M; simpl; rewrite ?M; exact L.
    + intros ? [= <-]. destruct (reduceMotion a);
        apply (scene_wf_ext a); auto.
Qed.

Lemma run_inv events : forall w, world_inv w -> world_inv (run w events).
Proof.
  induction events as [|e events IH]; intros w H; simpl.
  - exact H.
  - apply IH, step_inv, H.
Qed.

Lemma reachable_inv env events : world_inv (run (startup env) events).
Proof. apply run_inv, startup_inv. Qed.

(** ** Planet positions and the sun's rotation *)

Lemma updatePositions_position t a p :
  scene_wf a -> In p (planets a) ->
  planet_position (updatePositions t a) p = Some (on_orbit t p).
Proof.
  intros W Hin. pose proof (wf_planet_mesh a W) as HF.
  rewrite Forall_forall in HF. destruct (HF p Hin) as [m [Hm Hy]].
  unfold planet_position.
  rewrite (updatePositions_planet t a p m W Hin Hm). simpl.
  unfold on_orbit. rewrite Hy. reflexivity.
Qed.


Lemma updatePositions_sun_ref t a : sun (updatePositions t a) = sun a.
Proof. reflexivity. Qed.

Lemma Forall2_and_right {A B} (P : A -> B -> Prop) (Q : B -> Prop) l l' :
  Forall2 P l l' -> Forall Q l' -> Forall2 (fun u v => P u v /\ Q v) l l'.
Proof.
  induction 1 as [|u v l l' Huv HF IH]; intros HQ.
  - constructor.
  - inversion HQ; subst. constructor; auto.
Qed.

Lemma circle_identity theta r :
  (cos theta * r) * (cos theta * r) + (sin theta * r) * (sin theta * r) = r * r.
Proof.
  pose proof (sin2_cos2 theta) as H. unfold Rsqr in H.
  replace (cos theta * r * (cos theta * r) + sin theta * r * (sin theta * r))
    with (r * r * (sin theta * sin theta + cos theta * cos theta)) by ring.
  rewrite H. ring.
Qed.

Lemma descriptor_speeds_nonzero : Forall (fun d => d_speed d <> 0) planetData.
Proof. unfold planetData. repeat constructor; simpl; lra. Qed.

Lemma planet_speed_nonzero a p :
  scene_wf a -> In p (planets a) -> speed p <> 0.
Proof.
  intros W Hin. pose proof (wf_static a W) as HS.
  pose proof descriptor_speeds_nonzero as HD.
  revert HD Hin. induction HS as [|d q ds qs [_ Hq] _ IH]; intros HD Hin.
  - contradiction.
  - inversion HD; subst. destruct Hin as [<- | Hin].
    + rewrite Hq. assumption.
    + apply IH; assumption.
Qed.

Lemma angle_after_period t p :
  speed p <> 0 ->
  angle (t + 2 * PI / (speed p * 0.0005)) p = angle t p + 2 * INR 1 * PI.
Proof.
  intros H. unfold angle. change (INR 1) with 1.
  replace 0.5e-3 with (5 / 10000) by lra.
  replace 0.0005 with (5 / 10000) by lra.
  field. exact H.
Qed.

Lemma updateMany_wf times : forall a, scene_wf a -> scene_wf (updateMany times a).
Proof.
  induction times as [|t times IH]; intros a W; simpl.
  - exact W.
  - apply IH, updatePositions_wf, W.
Qed.

Lemma updateMany_planets times : forall a, planets (updateMany times a) = planets a.
Proof.
  induction times as [|t times IH]; intros a; simpl.
  - reflexivity.
  - rewrite IH. reflexivity.
Qed.

Lemma updateMany_sun times : forall a r,
  scene_wf a -> sun_rotation_y a = Some r ->
  sun_rotation_y (updateMany times a)
  = Some (Nat.iter (List.length times) (fun rotation_y => rotation_y + 0.002) r).
Proof.
  induction times as [|t times IH]; intros a r W Hr.
  - simpl. exact Hr.
  - change (updateMany (t :: times) a) with (updateMany times (updatePositions t a)).
    change (List.length (t :: times)) with (S (List.length times)).
    rewrite Nat.iter_succ_r.
    apply IH.
    + apply updatePositions_wf, W.
    + unfold sun_rotation_y in *. rewrite updatePositions_sun_ref.
      destruct (mesh_at (scene a) (sun a)) as [m|] eqn:Hm; [|discriminate].
      rewrite (updatePositions_sun t a m W Hm). simpl in *.
      injection Hr as <-. reflexivity.
Qed.

(** ** Orbits *)




(** C5. In every reachable state, for every planet [p] the speed is not 0
    and [updatePositions] puts [p]'s mesh at the same position at time [t]
    and at time [t + 2 PI / (speed * 0.0005)].  In the real-number model
    the two positions are equal, hence within any tolerance. *)
Theorem position_is_periodic env events a p t :
  app (run (startup env) events) = Some a ->
  In p (planets a) ->
  speed p <> 0 /\
  planet_position (updatePositions (t + 2 * PI / (speed p * 0.0005)) a) p
  = planet_position (updatePositions t a) p.
Proof.
  intros Ha Hin.
  destruct (reachable_inv env events) as [_ W]. specialize (W a Ha).
  pose proof (planet_speed_nonzero a p W Hin) as Hs.
  split; [exact Hs|].
  rewrite !updatePositions_position by assumption.
  unfold on_orbit. rewrite (angle_after_period t p Hs).
  rewrite cos_period, sin_period. reflexivity.
Qed.

Lemma position_is_periodic_witness :
  exists a p,
    app (startup (example_env true)) = Some a /\
    nth_error (planets a) 2 = Some p /\
    planet_position (updatePositions (250 + 2 * PI / (speed p * 0.0005)) a) p
    = planet_position (updatePositions 250 a) p.
Proof.
  exists paused0_app, (planet_of paused0_app 2).
  split; [exact paused0_live|]. split; [reflexivity|].
  apply (position_is_periodic (example_env true) [] paused0_app
           (planet_of paused0_app 2) 250 paused0_live).
  apply (nth_error_In _ 2). reflexivity.
Defined.

(** C7 as stated fails in the program's arithmetic: ten calls from 0 leave
    the sun's rotation at 0.020000000000000004, which is not [0.002 * 10],
    and a thousand calls leave it at 2.0000000000000013, not [0.002 * 1000]:
    every [+= 0.002] rounds. *)
Lemma sun_rotation_not_exact_in_doubles :
  Nat.iter 10 Double.spin 0%float = 0.020000000000000004%float /\
  PrimFloat.eqb (Nat.iter 10 Double.spin 0%float) (0.002 * 10)%float = false /\
  Nat.iter 1000 Double.spin 0%float = 2.0000000000000013%float /\
  PrimFloat.eqb (Nat.iter 1000 Double.spin 0%float) (0.002 * 1000)%float = false.
Proof. repeat split; vm_compute; reflexivity. Qed.

(** C7, amended. In every reachable state, every call of [updatePositions]
    adds 0.002 to the sun's rotation about [y] whatever its time argument:
    after [n] further calls with arbitrary times the rotation is what [n]
    successive additions of 0.002 give (which is [0.002 * n] more only up to
    the rounding of each addition); and the planet positions that a call at
    time [t] then computes are those it computes without the [n] calls
    before it: they depend on [t] only. *)
Theorem sun_rotation_accumulates env events a times :
  app (run (startup env) events) = Some a ->
  exists r,
    sun_rotation_y a = Some r /\
    sun_rotation_y (updateMany times a)
    = Some (Nat.iter (List.length times)
                     (fun rotation_y => rotation_y + 0.002) r) /\
    forall t,
      map (planet_position (updatePositions t (updateMany times a)))
          (planets (updateMany times a))
      = map (planet_position (updatePositions t a)) (planets a).
Proof.
  intros Ha.
  destruct (reachable_inv env events) as [_ W]. specialize (W a Ha).
  destruct (wf_sun_mesh a W) as [m Hm].
  exists (y (rotation m)).
  assert (Hr : sun_rotation_y a = Some (y (rotation m))).
  { unfold sun_rotation_y. rewrite Hm. reflexivity. }
  split; [exact Hr|]. split; [apply updateMany_sun; assumption|].
  intros t. rewrite updateMany_planets.
  apply map_ext_in. intros p Hin.
  rewrite updatePositions_position.
  - rewrite updatePositions_position by assumption. reflexivity.
  - apply updateMany_wf, W.
  - rewrite updateMany_planets. exact Hin.
Qed.

Lemma sun_rotation_accumulates_witness :
  exists a,
    app (startup (example_env false)) = Some a /\
    sun_rotation_y a = Some 0 /\
    sun_rotation_y (updateMany [5; 5; 100000] a)
    = Some (0 + 0.002 + 0.002 + 0.002).
Proof.
  exists running0_app. split; [exact running0_live|].
  destruct (sun_rotation_accumulates (example_env false) [] running0_app
              [5; 5; 100000] running0_live)
    as [r [H0 [Hn _]]].
  assert (E : Some r = Some 0) by (rewrite <- H0; reflexivity).
  injection E as ->. split; [reflexivity|].
  rewrite Hn. reflexivity.
Defined.

(** ** Rings *)

(** C4 as stated fails: two descriptors have the ring flag, and two planets
    get a ring. *)
Lemma not_exactly_one_ring :
  List.length (filter d_hasRing planetData) <> 1%nat /\
  ~ (forall a, app (startup (example_env false)) = Some a ->
               List.length (ringed_planets a) = 1%nat).
Proof.
  split; [discriminate|].
  intros H. specialize (H running0_app running0_live). discriminate H.
Qed.

(** C4, amended. There are eight descriptors and exactly two of them, Saturn
    and Uranus, have the ring flag; [startup] builds exactly two planets
    whose mesh has a ring attached, the sixth and the seventh, with one ring
    each. *)
Theorem two_planets_are_ringed env a :
  app (startup env) = Some a ->
  List.length planetData = 8%nat /\
  map d_name (filter d_hasRing planetData) = ["Saturn"; "Uranus"]%string /\
  List.length (ringed_planets a) = 2%nat /\
  ring_counts a
  = [Some 0; Some 0; Some 0; Some 0; Some 0; Some 1; Some 1; Some 0]%nat.
Proof.
  intros Ha. split; [reflexivity|]. split; [reflexivity|].
  destruct (env_canvas env) as [c|] eqn:Hc.
  2:{ rewrite (startup_no_canvas env Hc) in Ha. discriminate. }
  destruct (isWebGLAvailable env) eqn:G.
  2:{ rewrite (startup_unavailable env c Hc G) in Ha. discriminate. }
  rewrite (startup_available env c Hc G) in Ha.
  destruct (motionMatches env) eqn:M.
  - injection Ha as <-. split; reflexivity.
  - simpl in Ha. rewrite M in Ha. simpl in Ha. injection Ha as <-.
    split; reflexivity.
Qed.

Lemma two_planets_are_ringed_witness :
  exists a,
    app (startup (example_env false)) = Some a /\
    List.length (ringed_planets a) = 2%nat.
Proof.
  exists running0_app. split; [exact running0_live|].
  apply (two_planets_are_ringed (example_env false) running0_app running0_live).
Defined.

(** ** The capability gate *)

Lemma isWebGLAvailable_false env :
  isWebGLAvailable env = false <-> acquisition_fails env.
Proof.
  unfold isWebGLAvailable, acquisition_fails.
  destruct (ctx_webgl env), (ctx_experimental env); split; intros H;
    try reflexivity; try discriminate; auto;
    try (right; split; [reflexivity|discriminate]);
    destruct H as [H | [H1 H2]]; try discriminate; congruence.
Qed.

Lemma step_inert w e :
  app w = None -> pending w = [] ->
  app (step w e) = None /\ pending (step w e) = [] /\
  canvas (browser (step w e)) = canvas (browser w) /\
  fallbackEl (browser (step w e)) = fallbackEl (browser w).
Proof.
  intros Ha Hp. unfold step. rewrite Ha.
  destruct e; simpl; auto.
Qed.

Lemma run_inert events : forall w,
  app w = None -> pending w = [] ->
  app (run w events) = None /\ pending (run w events) = [] /\
  canvas (browser (run w events)) = canvas (browser w) /\
  fallbackEl (browser (run w events)) = fallbackEl (browser w).
Proof.
  induction events as [|e events IH]; intros w Ha Hp; simpl.
  - auto.
  - destruct (step_inert w e Ha Hp) as [Ha' [Hp' [Hc Hf]]].
    destruct (IH (step w e) Ha' Hp') as [? [? [? ?]]].
    repeat split; congruence.
Qed.

(** C2. When the page has the canvas and no context can be acquired,
    [startup] sets the canvas's display to none; if the page has the
    fallback panel, the panel's text is the unavailability message and its
    hidden flag is false; the closure is not created, so no scene object
    exists and nothing is drawn; and no frame callback is queued, neither by
    [startup] nor after any sequence of later events, which also leave the
    canvas and the panel as they are. *)
Theorem unavailable_shows_fallback env c :
  env_canvas env = Some c ->
  acquisition_fails env ->
  let w := startup env in
  canvas (browser w) = Some (mkCanvas "none") /\
  (forall el, env_fallbackEl env = Some el ->
              fallbackEl (browser w) = Some (mkElement unavailable_message false)) /\
  app w = None /\ scene_objects w = [] /\ pending w = [] /\
  forall events,
    app (run w events) = None /\
    scene_objects (run w events) = [] /\
    draw_count (run w events) = 0%nat /\
    pending (run w events) = [] /\
    canvas (browser (run w events)) = canvas (browser w) /\
    fallbackEl (browser (run w events)) = fallbackEl (browser w).
Proof.
  intros Hc Hf w. apply isWebGLAvailable_false in Hf.
  pose proof (startup_unavailable env c Hc Hf) as E. fold w in E.
  assert (Hp : pending w = []).
  { rewrite E. unfold pending, showFallback; simpl.
    destruct (env_fallbackEl env); reflexivity. }
  assert (Ha : app w = None) by (rewrite E; reflexivity).
  split.
  { rewrite E. unfold showFallback; simpl.
    destruct (env_fallbackEl env); reflexivity. }
  split.
  { intros el Hel. rewrite E. unfold showFallback; simpl. rewrite Hel.
    reflexivity. }
  split; [exact Ha|]. split; [unfold scene_objects; rewrite Ha; reflexivity|].
  split; [exact Hp|].
  intros events. destruct (run_inert events w Ha Hp) as [Ha' [Hp' [H1 H2]]].
  unfold scene_objects, draw_count. rewrite Ha'. auto 10.
Qed.

Lemma unavailable_shows_fallback_witness :
  let w := startup example_env_no_webgl in
  canvas (browser w) = Some (mkCanvas "none") /\
  fallbackEl (browser w) = Some (mkElement unavailable_message false) /\
  scene_objects w = [] /\
  pending (run w [Frame 16; MotionChange false; Resize example_window; Frame 33]) = [].
Proof.
  destruct (unavailable_shows_fallback example_env_no_webgl (mkCanvas EmptyString) eq_refl)
    as [H1 [H2 [_ [H3 [_ H4]]]]].
  { right. split; [reflexivity|discriminate]. }
  split; [exact H1|]. split; [apply (H2 (mkElement EmptyString true) eq_refl)|].
  split; [exact H3|]. apply H4.
Defined.

(** ** Resizing *)

Lemma Rmin_3_2 : Rmin 3 2 = 2.
Proof. unfold Rmin. destruct (Rle_dec 3 2); lra. Qed.

Lemma or_one_defined d : d <> 0 -> or_one (Some d) = d.
Proof.
  intros H. unfold or_one. destruct (Req_dec_T d 0); [contradiction|reflexivity].
Qed.

(** When the property is undefined or 0 the ratio defaults to 1. *)
Lemma or_one_default : or_one None = 1 /\ or_one (Some 0) = 1.
Proof.
  split; [reflexivity|]. unfold or_one.
  destruct (Req_dec_T 0 0); [reflexivity|contradiction].
Qed.

(** C8. A resize event, on a live component whose window then reports a
    device pixel ratio [d] that is defined and not 0, sets the renderer's
    pixel ratio to [min d 2], its size to the window's size and the camera's
    aspect ratio (and the one its projection uses) to [width / height];
    it draws once when the component is PAUSED ([reduceMotion] true) and
    not at all when it is RUNNING; it leaves the motion flag, the handle and
    the queue of frame callbacks as they were. *)
Theorem resize_applies_size w a win d :
  app w = Some a ->
  devicePixelRatio win = Some d ->
  d <> 0 ->
  exists a',
    app (step w (Resize win)) = Some a' /\
    pixelRatio (renderer a') = Rmin d 2 /\
    pixelRatio (renderer a') <= 2 /\
    width (renderer a') = innerWidth win /\
    height (renderer a') = innerHeight win /\
    aspect (camera a') = innerWidth win / innerHeight win /\
    projection_aspect (camera a') = innerWidth win / innerHeight win /\
    draws (renderer a')
    = (draws (renderer a) + if reduceMotion a then 1 else 0)%nat /\
    reduceMotion a' = reduceMotion a /\
    rafId a' = rafId a /\
    pending (step w (Resize win)) = pending w.
Proof.
  intros Ha Hd Hnz. unfold step. rewrite Ha.
  unfold onResize, applySize, close; simpl. rewrite Hd.
  rewrite (or_one_defined d Hnz).
  destruct (reduceMotion a) eqn:M; eexists; (split; [reflexivity|]); simpl;
    rewrite ?M; repeat split; try reflexivity; try apply Rmin_r; lia.
Qed.

Lemma resize_applies_size_witness :
  exists a',
    app (step (startup (example_env true)) (Resize (mkWindow 800 600 (Some 3))))
    = Some a' /\
    pixelRatio (renderer a') = 2 /\
    aspect (camera a') = 800 / 600 /\
    draws (renderer a') = 2%nat.
Proof.
  destruct (resize_applies_size (startup (example_env true)) paused0_app
              (mkWindow 800 600 (Some 3)) 3 paused0_live eq_refl)
    as [a' [H1 [H2 [_ [_ [_ [H3 [_ [H4 _]]]]]]]]].
  { lra. }
  exists a'. split; [exact H1|]. split; [rewrite H2; apply Rmin_3_2|].
  split; [exact H3|exact H4].
Defined.

(** ** The frame queue *)

(** C9. After [startup] and any sequence of frame, motion-change and resize
    events, whatever the page and the device, at most one frame callback is
    queued. *)
Theorem at_most_one_pending env events :
  (List.length (pending (run (startup env) events)) <= 1)%nat.
Proof.
  destruct (reachable_inv env events) as [L _]. unfold loop_inv in L.
  destruct (app (run (startup env) events)) as [a|].
  - destruct (reduceMotion a); destruct L as [_ ->]; simpl; lia.
  - rewrite L. simpl. lia.
Qed.

Lemma animate_reduceMotion now s :
  reduceMotion (fst (animate now s)) = reduceMotion (fst s).
Proof.
  destruct s as [a b]. unfold animate.
  destruct (reduceMotion a) eqn:M; simpl; auto.
Qed.

Lemma animate_keeps_paused_handle now s :
  (reduceMotion (fst s) = true -> rafId (fst s) = 0%N) ->
  reduceMotion (fst (animate now s)) = true -> rafId (fst (animate now s)) = 0%N.
Proof.
  destruct s as [a b]. unfold animate.
  destruct (reduceMotion a) eqn:M; simpl; auto.
  intros _ H. rewrite H in M. discriminate.
Qed.

Lemma callbacks_keep_paused_handle now (callbacks : list N) : forall s,
  (reduceMotion (fst s) = true -> rafId (fst s) = 0%N) ->
  let s' := fold_left (fun s _ => animate now s) callbacks s in
  reduceMotion (fst s') = true -> rafId (fst s') = 0%N.
Proof.
  induction callbacks as [|h callbacks IH]; intros s H; simpl.
  - exact H.
  - apply IH. apply animate_keeps_paused_handle, H.
Qed.

Lemma step_keeps_paused_handle w e :
  paused_has_no_handle w -> paused_has_no_handle (step w e).
Proof.
  intros H a'. unfold step. destruct (app w) as [a|] eqn:Ha.
  2:{ destruct e; simpl; try discriminate. rewrite Ha. discriminate. }
  specialize (H a Ha).
  destruct e as [now | matches | win]; unfold close; simpl; intros [= <-].
  - unfold runFrameCallbacks. apply callbacks_keep_paused_handle. exact H.
  - unfold onMotionChange; simpl. destruct matches; simpl; [reflexivity|].
    unfold startAnimation; simpl.
    destruct (negb (truthy_handle (rafId a))); simpl; discriminate.
  - unfold onResize, applySize; simpl.
    destruct (reduceMotion a) eqn:M; simpl; rewrite ?M; auto.
Qed.

(** C10. The implication "[reduceMotion] true, then [rafId] is 0" holds after
    [startup], and every event handler preserves it from any state [w0] in
    which it holds; in every reachable state in which [reduceMotion] is true,
    [rafId] is 0 and moreover no frame callback is queued. *)
Theorem paused_never_has_frame env events e w0 :
  paused_has_no_handle w0 ->
  paused_has_no_handle (startup env) /\
  paused_has_no_handle (step w0 e) /\
  forall a,
    app (run (startup env) events) = Some a ->
    reduceMotion a = true ->
    rafId a = 0%N /\ pending (run (startup env) events) = [].
Proof.
  intros H0.
  assert (R : forall evs a,
             app (run (startup env) evs) = Some a ->
             reduceMotion a = true ->
             rafId a = 0%N /\ pending (run (startup env) evs) = []).
  { intros evs a Ha M. destruct (reachable_inv env evs) as [L _].
    unfold loop_inv in L. rewrite Ha, M in L. exact L. }
  split; [|split].
  - intros a Ha M. apply (R [] a Ha M).
  - apply step_keeps_paused_handle, H0.
  - apply R.
Qed.

Lemma paused_never_has_frame_witness :
  exists a,
    app (run (startup (example_env false)) [Frame 16; MotionChange true]) = Some a /\
    reduceMotion a = true /\
    rafId a = 0%N /\
    pending (run (startup (example_env false)) [Frame 16; MotionChange true]) = [].
Proof.
  exists paused2_app. split; [exact paused2_live|]. split; [reflexivity|].
  assert (H0 : paused_has_no_handle (startup (example_env true))).
  { intros a Ha _. rewrite paused0_live in Ha. injection Ha as <-.
    reflexivity. }
  apply (paused_never_has_frame (example_env false)
           [Frame 16; MotionChange true] (Resize example_window)
           (startup (example_env true)) H0).
  - exact paused2_live.
  - reflexivity.
Defined.

(** ** Pausing and resuming *)

Lemma step_motion_true b a :
  step (mkWorld b (Some a)) (MotionChange true)
  = close (stopAnimation (set_reduceMotion true a, b)).
Proof. reflexivity. Qed.

Lemma step_motion_false b a :
  step (mkWorld b (Some a)) (MotionChange false)
  = close (startAnimation (set_reduceMotion false a, b)).
Proof. reflexivity. Qed.

(** C3 fails on the running component right after startup: the two stops
    draw twice. *)
Lemma second_stop_draws_again :
  ~ second_stop_is_noop (startup (example_env false)) /\
  draw_count (run (startup (example_env false))
                  [MotionChange true; MotionChange true])
  = (draw_count (startup (example_env false)) + 2)%nat.
Proof.
  rewrite running0_eq. split; [|reflexivity].
  intros [_ [H _]]. discriminate H.
Qed.

(** C3, amended. In a reachable RUNNING state, the RUNNING->PAUSED
    transition is [stopAnimation] on the state with the flag set; invoked
    twice in a row it leaves no frame callback queued after the first and
    after the second invocation and each invocation draws once, two draws in
    total: the second invocation finds the handle 0, cancels nothing and
    only draws the frozen scene once more. *)
Theorem stop_twice_draws_twice env events a :
  let w := run (startup env) events in
  app w = Some a ->
  reduceMotion a = false ->
  let w1 := step w (MotionChange true) in
  let w2 := step w1 (MotionChange true) in
  w1 = close (stopAnimation (set_reduceMotion true a, browser w)) /\
  w2 = close (stopAnimation (stopAnimation (set_reduceMotion true a, browser w))) /\
  pending w1 = [] /\ pending w2 = [] /\
  draw_count w1 = S (draw_count w) /\
  draw_count w2 = S (S (draw_count w)) /\
  exists a1,
    app w1 = Some a1 /\ reduceMotion a1 = true /\ rafId a1 = 0%N /\
    w2 = mkWorld (browser w1) (Some (renderFrame a1)).
Proof.
  intros w Ha M. destruct (reachable_inv env events) as [L _].
  fold w in L. unfold loop_inv, pending in L. rewrite Ha, M in L.
  destruct L as [L1 L2]. apply truthy_handle_true in L1.
  destruct w as [b oa]. simpl in Ha. subst oa. simpl in L2.
  intros w1 w2. subst w1 w2. rewrite step_motion_true.
  unfold draw_count, pending, stopAnimation; simpl. rewrite L1.
  unfold cancelAnimationFrame; simpl. rewrite L2. simpl.
  rewrite N.eqb_refl. simpl.
  repeat split; try reflexivity.
  eexists. repeat split; reflexivity.
Qed.

Lemma stop_twice_draws_twice_witness :
  let w := run (startup (example_env false)) [Frame 16] in
  pending (run w [MotionChange true; MotionChange true]) = [] /\
  draw_count (run w [MotionChange true; MotionChange true])
  = S (S (draw_count w)).
Proof.
  intros w.
  destruct (stop_twice_draws_twice (example_env false) [Frame 16]
              running1_app running1_live eq_refl)
    as [_ [_ [_ [H1 [_ [H2 _]]]]]].
  split; [exact H1|exact H2].
Defined.

(** C6. In a reachable PAUSED state, the PAUSED->RUNNING transition is
    [startAnimation] on the state with the flag cleared; invoked once it
    queues exactly one frame callback, the one whose handle is in [rafId];
    invoked a second time it changes nothing, so one callback is queued, not
    two. *)
Theorem start_twice_schedules_once env events a :
  let w := run (startup env) events in
  app w = Some a ->
  reduceMotion a = true ->
  let w1 := step w (MotionChange false) in
  let w2 := step w1 (MotionChange false) in
  w1 = close (startAnimation (set_reduceMotion false a, browser w)) /\
  w2 = close (startAnimation (startAnimation (set_reduceMotion false a, browser w))) /\
  List.length (pending w1) = 1%nat /\
  List.length (pending w2) = 1%nat /\
  w2 = w1 /\
  exists a1,
    app w1 = Some a1 /\ reduceMotion a1 = false /\ rafId a1 <> 0%N /\
    pending w1 = [rafId a1].
Proof.
  intros w Ha M. destruct (reachable_inv env events) as [L _].
  fold w in L. unfold loop_inv, pending in L. rewrite Ha, M in L.
  destruct L as [L1 L2].
  destruct w as [b oa]. simpl in Ha. subst oa. simpl in L2.
  intros w1 w2. subst w1 w2. rewrite step_motion_false.
  unfold pending, startAnimation; simpl. rewrite L1, L2. simpl.
  assert (T : truthy_handle (N.succ (rafCounter b)) = true).
  { apply truthy_handle_true, N.neq_succ_0. }
  unfold step, close, onMotionChange, startAnimation; simpl.
  rewrite !T. simpl.
  repeat split; try reflexivity.
  eexists. repeat split; try reflexivity. simpl. apply N.neq_succ_0.
Qed.

Lemma start_twice_schedules_once_witness :
  let w := run (startup (example_env true)) [Resize example_window] in
  List.length (pending (run w [MotionChange false; MotionChange false])) = 1%nat /\
  run w [MotionChange false; MotionChange false] = run w [MotionChange false].
Proof.
  intros w.
  destruct (start_twice_schedules_once (example_env true) [Resize example_window]
              paused_resized_app paused_resized_live eq_refl)
    as [_ [_ [_ [H1 [H2 _]]]]].
  split; [exact H1|exact H2].
Defined.


(** * Further properties of the script *)

(** ** Liveness of the closure and the page's elements *)

Lemma callbacks_preserve (P : App * Browser -> Prop) now :
  (forall s, P s -> P (animate now s)) ->
  forall (callbacks : list N) s,
    P s -> P (fold_left (fun s _ => animate now s) callbacks s).
Proof.
  intros H callbacks. induction callbacks as [|h callbacks IH]; intros s Hs; simpl.
  - exact Hs.
  - apply IH, H, Hs.
Qed.

Lemma isWebGLAvailable_true env :
  isWebGLAvailable env = true <-> acquisition_succeeds env.
Proof.
  unfold isWebGLAvailable, acquisition_succeeds.
  destruct (ctx_webgl env), (ctx_experimental env); split; intros H;
    try reflexivity; try discriminate; auto;
    destruct H as [H | [H1 H2]]; discriminate.
Qed.

Lemma step_app_none w e : app w = None -> app (step w e) = None.
Proof. intros H. unfold step. rewrite H. destruct e; simpl; auto. Qed.

Lemma step_app_some w e a : app w = Some a -> exists a', app (step w e) = Some a'.
Proof. intros H. unfold step. rewrite H. destruct e; eexists; reflexivity. Qed.

Lemma run_app_none events : forall w, app w = None -> app (run w events) = None.
Proof.
  induction events as [|e events IH]; intros w H; simpl; auto.
  apply IH, step_app_none, H.
Qed.

Lemma run_app_some events : forall w a,
  app w = Some a -> exists a', app (run w events) = Some a'.
Proof.
  induction events as [|e events IH]; intros w a H; simpl; eauto.
  destruct (step_app_some w e a H) as [a' H']. eapply IH, H'.
Qed.

Lemma animate_elements now b0 s :
  same_elements b0 (snd s) -> same_elements b0 (snd (animate now s)).
Proof.
  destruct s as [a b]. unfold animate. destruct (reduceMotion a); simpl; auto.
Qed.

Lemma step_elements w e : same_elements (browser w) (browser (step w e)).
Proof.
  unfold step. destruct (app w) as [a|].
  2:{ destruct e; split; reflexivity. }
  destruct e as [now | matches | win]; unfold close.
  - unfold runFrameCallbacks.
    apply (callbacks_preserve (fun s => same_elements (browser w) (snd s))).
    + intros s. apply animate_elements.
    + split; reflexivity.
  - unfold onMotionChange, stopAnimation, startAnimation; simpl.
    destruct matches; simpl.
    + destruct (truthy_handle (rafId a)); split; reflexivity.
    + destruct (negb (truthy_handle (rafId a))); split; reflexivity.
  - unfold onResize, applySize; simpl. split; reflexivity.
Qed.

Lemma run_elements events : forall w,
  same_elements (browser w) (browser (run w events)).
Proof.
  induction events as [|e events IH]; intros w; simpl.
  - split; reflexivity.
  - destruct (step_elements w e) as [H1 H2].
    destruct (IH (step w e)) as [H3 H4].
    split; congruence.
Qed.

(** X1. On a page without the canvas the script does nothing, whether or not
    a context could be acquired: the fallback panel stays as it was, no
    closure state exists, nothing is drawn and no frame callback is queued,
    at startup and after any sequence of events. *)
Theorem no_canvas_does_nothing env events :
  env_canvas env = None ->
  let w := run (startup env) events in
  app w = None /\ scene_objects w = [] /\ draw_count w = 0%nat /\
  pending w = [] /\
  canvas (browser w) = None /\
  fallbackEl (browser w) = env_fallbackEl env.
Proof.
  intros Hc w. pose proof (startup_no_canvas env Hc) as E.
  assert (Ha : app (startup env) = None) by (rewrite E; reflexivity).
  assert (Hp : pending (startup env) = []) by (rewrite E; reflexivity).
  destruct (run_inert events (startup env) Ha Hp) as [Ha' [Hp' [H1 H2]]].
  fold w in Ha', Hp', H1, H2.
  unfold scene_objects, draw_count. rewrite Ha'.
  repeat split; auto.
  - rewrite H1, E. simpl. unfold initial_browser. simpl. exact Hc.
  - rewrite H2, E. reflexivity.
Qed.

Lemma no_canvas_does_nothing_witness :
  let env := mkEnv None (Some (mkElement EmptyString true))
                   ContextNull ContextNull example_window false
                   (fun _ => 0) HasColorSpace 0 in
  let w := run (startup env) [Frame 16; MotionChange true] in
  app w = None /\
  fallbackEl (browser w) = Some (mkElement EmptyString true).
Proof.
  intros env w.
  destruct (no_canvas_does_nothing env [Frame 16; MotionChange true] eq_refl)
    as [H1 [_ [_ [_ [_ H2]]]]].
  split; [exact H1|exact H2].
Defined.

(** X2. The closure is created exactly when the page has the canvas and a
    context is acquired ([webgl] yields one, or [webgl] yields null and
    [experimental-webgl] yields one; a throwing call never does), and no
    later event creates or destroys it. *)
Theorem component_live_iff env events :
  (exists a, app (run (startup env) events) = Some a) <->
  (env_canvas env <> None /\ acquisition_succeeds env).
Proof.
  rewrite <- isWebGLAvailable_true.
  destruct (env_canvas env) as [c|] eqn:Hc.
  2:{ split.
      - intros [a Ha]. rewrite run_app_none in Ha; [discriminate|].
        rewrite (startup_no_canvas env Hc). reflexivity.
      - intros [H _]. contradiction. }
  destruct (isWebGLAvailable env) eqn:G.
  - split; [intros _; split; [discriminate|reflexivity]|].
    intros _. pose proof (startup_available env c Hc G) as E.
    destruct (motionMatches env); eapply run_app_some; rewrite E; reflexivity.
  - split; [|intros [_ H]; discriminate].
    intros [a Ha]. rewrite run_app_none in Ha; [discriminate|].
    rewrite (startup_unavailable env c Hc G). reflexivity.
Qed.

(** X3. No event after startup changes the canvas's [style.display] or the
    fallback panel's text and hidden flag; and when a context is acquired
    [startup] itself leaves these as the page had them, so a working
    component never shows the panel or hides the canvas.  (The canvas's
    size is not part of this: [setSize] changes it.) *)
Theorem elements_change_only_at_gate env events :
  let w := run (startup env) events in
  canvas (browser w) = canvas (browser (startup env)) /\
  fallbackEl (browser w) = fallbackEl (browser (startup env)) /\
  (isWebGLAvailable env = true ->
   canvas (browser w) = env_canvas env /\
   fallbackEl (browser w) = env_fallbackEl env).
Proof.
  intros w. destruct (run_elements events (startup env)) as [H1 H2].
  fold w in H1, H2. split; [exact H1|]. split; [exact H2|].
  intros G. rewrite H1, H2.
  destruct (env_canvas env) as [c|] eqn:Hc.
  - rewrite (startup_available env c Hc G).
    destruct (motionMatches env) eqn:M; simpl; rewrite ?M; simpl; rewrite ?M; auto.
  - rewrite (startup_no_canvas env Hc). simpl. auto.
Qed.

(** ** What never changes after startup *)

Section StoreMore.

Variable f : Mesh -> Mesh.

Lemma nth_error_update_other i j (sc : Scene) :
  i <> j -> nth_error (update_mesh i f sc) j = nth_error sc j.
Proof.
  revert i j; induction sc as [|o rest IH]; intros [|i] [|j] Hij;
    simpl; try reflexivity; try congruence.
  - destruct o; reflexivity.
  - destruct o; reflexivity.
  - assert (i <> j) by congruence.
    destruct o; simpl; apply IH; assumption.
Qed.

Lemma mesh_at_update_map i (sc : Scene) :
  mesh_at (update_mesh i f sc) i = option_map f (mesh_at sc i).
Proof.
  unfold mesh_at; revert i; induction sc as [|o rest IH]; intros [|i]; simpl;
    try reflexivity.
  - destruct o; reflexivity.
  - destruct o; simpl; apply IH.
Qed.

(** A mutation that keeps the view [g] of a mesh keeps the view [g] of the
    whole scene. *)
Lemma update_mesh_view {V} (g : Mesh -> V) i j (sc : Scene) :
  (forall m, g (f m) = g m) ->
  option_map g (mesh_at (update_mesh i f sc) j) = option_map g (mesh_at sc j).
Proof.
  intros Hg. destruct (Nat.eq_dec i j) as [<- | Hij].
  - rewrite mesh_at_update_map. destruct (mesh_at sc i); simpl; [|reflexivity].
    rewrite Hg. reflexivity.
  - rewrite mesh_at_update_other by exact Hij. reflexivity.
Qed.

End StoreMore.

Lemma movePlanet_length t sc p :
  List.length (movePlanet t sc p) = List.length sc.
Proof. unfold movePlanet. rewrite !update_mesh_length. reflexivity. Qed.

Lemma movePlanet_nth_other t sc p j :
  mesh p <> j -> nth_error (movePlanet t sc p) j = nth_error sc j.
Proof.
  intros H. unfold movePlanet.
  rewrite !nth_error_update_other by exact H. reflexivity.
Qed.

Lemma movePlanet_static t sc p j :
  option_map planet_static (mesh_at (movePlanet t sc p) j)
  = option_map planet_static (mesh_at sc j).
Proof.
  unfold movePlanet.
  rewrite !(update_mesh_view _ planet_static) by (intros m; reflexivity).
  reflexivity.
Qed.

Lemma move_all_length t ps : forall sc,
  List.length (fold_left (movePlanet t) ps sc) = List.length sc.
Proof.
  induction ps as [|q ps IH]; intros sc; simpl; [reflexivity|].
  rewrite IH. apply movePlanet_length.
Qed.

Lemma move_all_nth_other t ps : forall sc j,
  ~ In j (map mesh ps) ->
  nth_error (fold_left (movePlanet t) ps sc) j = nth_error sc j.
Proof.
  induction ps as [|q ps IH]; intros sc j Hj; simpl in *; [reflexivity|].
  rewrite IH by tauto. apply movePlanet_nth_other. tauto.
Qed.

Lemma move_all_static t ps : forall sc j,
  option_map planet_static (mesh_at (fold_left (movePlanet t) ps sc) j)
  = option_map planet_static (mesh_at sc j).
Proof.
  induction ps as [|q ps IH]; intros sc j; simpl; [reflexivity|].
  rewrite IH. apply movePlanet_static.
Qed.

Lemma updatePositions_static built t a :
  sun a = sun_ref -> map mesh (planets a) = planet_refs ->
  scene_static built (scene a) ->
  scene_static built (scene (updatePositions t a)).
Proof.
  intros Hs Hp [S1 S2 S3 S4]. unfold updatePositions; simpl. rewrite Hs.
  constructor.
  - rewrite update_mesh_length, move_all_length. exact S1.
  - intros i Hi Hn.
    rewrite nth_error_update_other by congruence.
    rewrite move_all_nth_other by (rewrite Hp; exact Hn).
    apply S2; assumption.
  - intros i Hi.
    rewrite mesh_at_update_other.
    + rewrite move_all_static. apply S3, Hi.
    + intros E. apply sun_not_planet. rewrite E. exact Hi.
  - rewrite (update_mesh_view _ sun_static) by (intros m; reflexivity).
    rewrite move_all_other by (rewrite Hp; apply sun_not_planet).
    exact S4.
Qed.

Lemma scene_static_refl sc : scene_static sc sc.
Proof. constructor; reflexivity. Qed.

Lemma initial_app_steady env : steady env (initial_app env, initial_browser env).
Proof.
  constructor; simpl.
  - reflexivity.
  - reflexivity.
  - apply scene_static_refl.
  - constructor; reflexivity.
  - constructor; reflexivity.
  - apply N.le_0_l.
Qed.

Lemma steady_updatePositions env t a b :
  steady env (a, b) -> steady env (updatePositions t a, b).
Proof.
  intros [H1 H2 H3 H4 H5 H6]; simpl in *. constructor; simpl; auto.
  - apply updatePositions_static; auto. rewrite H1. reflexivity.
  - destruct H4; constructor; assumption.
  - destruct H5; constructor; assumption.
Qed.

Lemma steady_renderFrame env a b :
  steady env (a, b) -> steady env (renderFrame a, b).
Proof.
  intros [H1 H2 H3 H4 H5 H6]; simpl in *. constructor; simpl; auto.
  - destruct H4; constructor; assumption.
  - destruct H5; constructor; assumption.
Qed.

(** A new handle, or the handle 0, in [rafId]. *)
Lemma steady_request env a b :
  steady env (a, b) ->
  steady env (set_rafId (fst (requestAnimationFrame b)) a,
              snd (requestAnimationFrame b)).
Proof.
  intros [H1 H2 H3 H4 H5 H6]; simpl in *. constructor; simpl; auto.
  - destruct H4; constructor; assumption.
  - destruct H5; constructor; assumption.
  - apply N.le_refl.
Qed.

Lemma steady_animate env now s : steady env s -> steady env (animate now s).
Proof.
  destruct s as [a b]. intros H. unfold animate.
  destruct (reduceMotion a); [exact H|]. simpl.
  apply steady_renderFrame, steady_updatePositions.
  apply (steady_request env a b H).
Qed.

Lemma steady_startAnimation env s : steady env s -> steady env (startAnimation s).
Proof.
  destruct s as [a b]. intros H. unfold startAnimation.
  destruct (negb (truthy_handle (rafId a)) && negb (reduceMotion a));
    [|exact H].
  apply (steady_request env a b H).
Qed.

Lemma steady_stopAnimation env s : steady env s -> steady env (stopAnimation s).
Proof.
  destruct s as [a b]. intros [H1 H2 H3 H4 H5 H6]; simpl in *.
  unfold stopAnimation.
  constructor; simpl; auto.
  - destruct (truthy_handle (rafId a)); destruct H4; constructor; assumption.
  - destruct H5; constructor; assumption.
  - apply N.le_0_l.
Qed.

Lemma steady_set_reduceMotion env v a b :
  steady env (a, b) -> steady env (set_reduceMotion v a, b).
Proof.
  intros [H1 H2 H3 H4 H5 H6]; simpl in *. constructor; simpl; auto.
  - destruct H4; constructor; assumption.
  - destruct H5; constructor; assumption.
Qed.

Lemma steady_set_rafPending env l a b :
  steady env (a, b) -> steady env (a, set_rafPending l b).
Proof.
  intros [H1 H2 H3 H4 H5 H6]; simpl in *. constructor; simpl; auto.
Qed.

Lemma steady_onResize env win a b :
  steady env (a, b) -> steady env (onResize (a, set_window win b)).
Proof.
  intros [H1 H2 H3 H4 H5 H6]; simpl in *.
  unfold onResize, applySize; simpl.
  destruct H5.
  destruct (reduceMotion a) eqn:M; simpl; rewrite ?M;
    constructor; simpl; auto; constructor; simpl; auto.
Qed.

Lemma startup_steady env : world_steady env (startup env).
Proof.
  intros a Ha.
  destruct (env_canvas env) as [c|] eqn:Hc.
  2:{ rewrite (startup_no_canvas env Hc) in Ha. discriminate. }
  destruct (isWebGLAvailable env) eqn:G.
  2:{ rewrite (startup_unavailable env c Hc G) in Ha. discriminate. }
  rewrite (startup_available env c Hc G) in Ha |- *.
  pose proof (initial_app_steady env) as S.
  destruct (motionMatches env) eqn:M.
  - injection Ha as <-. simpl.
    apply steady_renderFrame, steady_updatePositions, S.
  - apply steady_startAnimation in S.
    destruct (startAnimation (initial_app env, initial_browser env)) as [a1 b1].
    simpl in Ha. injection Ha as <-. exact S.
Qed.

Lemma step_steady env w e : world_steady env w -> world_steady env (step w e).
Proof.
  intros H a'. unfold step. destruct (app w) as [a|] eqn:Ha.
  2:{ destruct e; simpl; try discriminate. rewrite Ha. discriminate. }
  specialize (H a Ha).
  assert (K : forall s, steady env s -> Some (fst s) = Some a' ->
                        steady env (a', snd s)).
  { intros [a1 b1] Hs [= <-]. exact Hs. }
  destruct e as [now | matches | win]; unfold close; cbn [app browser];
    apply K.
  - unfold runFrameCallbacks.
    apply callbacks_preserve; [apply steady_animate|].
    apply steady_set_rafPending, H.
  - unfold onMotionChange.
    destruct (reduceMotion (set_reduceMotion matches a)).
    + apply steady_stopAnimation, steady_set_reduceMotion, H.
    + apply steady_startAnimation, steady_set_reduceMotion, H.
  - apply steady_onResize, H.
Qed.

Lemma run_steady env events : forall w,
  world_steady env w -> world_steady env (run w events).
Proof.
  induction events as [|e events IH]; intros w H; simpl.
  - exact H.
  - apply IH, step_steady, H.
Qed.

Lemma reachable_steady env events a :
  app (run (startup env) events) = Some a ->
  steady env (a, browser (run (startup env) events)).
Proof. apply run_steady, startup_steady. Qed.

(** X4. Nothing is allocated, removed or restyled after startup.  In every
    reachable state the scene still has the 19 objects that were built, the
    planet entries and the reference to the sun are the ones built, every
    object other than the sun and the planets is exactly as built (lights
    and orbit guides), a planet's mesh differs from the built one at most in
    [position.x] and [position.z], and the sun's mesh at most in
    [rotation.y]. *)
Theorem scene_only_moves env events a :
  app (run (startup env) events) = Some a ->
  let built := built_scene (textureApi env) (random env) in
  List.length (scene a) = 19%nat /\
  planets a = snd built /\
  sun a = sun_ref /\
  scene_static (fst built) (scene a).
Proof.
  intros Ha built.
  destruct (reachable_steady env events a Ha) as [H1 H2 H3 _ _ _]; simpl in *.
  split; [|auto].
  rewrite (st_length _ _ H3). reflexivity.
Qed.

Lemma scene_only_moves_witness :
  exists a,
    app (run (startup (example_env false)) [Frame 16]) = Some a /\
    List.length (scene a) = 19%nat /\
    nth_error (scene a) 0 = Some (AmbientLight 0xffffff 1.0) /\
    nth_error (scene a) 2 = Some (PointLight 0xfff200 2 100).
Proof.
  exists running1_app. split; [exact running1_live|].
  destruct (scene_only_moves (example_env false) [Frame 16] running1_app
              running1_live)
    as [H1 [_ [_ H2]]].
  split; [exact H1|].
  split; (rewrite (st_fixed _ _ H2);
          [reflexivity | discriminate
           | unfold planet_refs; simpl; intuition discriminate]).
Defined.

Ltac planet_mesh_case S3 k :=
  let E := fresh "E" in
  let Hm := fresh "Hm" in
  let m := fresh "m" in
  assert (E := S3 k ltac:(unfold planet_refs; simpl; tauto));
  destruct (mesh_at _ k) as [m|] eqn:Hm in E; [|discriminate E];
  exists m; split; [exact Hm|];
  unfold planet_static in E; cbn in E;
  injection E as -> -> -> -> ->;
  repeat split; try reflexivity; repeat constructor.

(** X5. In every reachable state each planet entry still refers to a mesh
    built from its descriptor: a 24 x 24 sphere of the descriptor's size,
    textured with the 256-pixel gradient of the descriptor's two colours,
    not rotated, with [position.y] 0, and carrying exactly one ring (inner
    radius 1.4 x size, outer radius 2.2 x size, lying flat) when the
    descriptor's flag is set and no child otherwise; and the entry keeps the
    descriptor's orbit radius and speed. *)
Theorem planets_match_descriptors env events a :
  app (run (startup env) events) = Some a ->
  Forall2
    (fun d p =>
       exists m,
         mesh_at (scene a) (mesh p) = Some m /\
         geometry m = SphereGeometry (d_size d) 24 24 /\
         material m
         = MeshBasicMaterial_map
             (createRadialTexture (textureApi env) (d_color1 d) (d_color2 d) 256) /\
         List.length (children m) = (if d_hasRing d then 1 else 0)%nat /\
         Forall (fun ring =>
                   geometry ring
                   = RingGeometry (d_size d * 1.4) (d_size d * 2.2) 64 /\
                   rotation ring = mkVector3 (PI / 2) 0 0)
                (children m) /\
         rotation m = origin /\
         y (position m) = 0 /\
         orbitRadius p = d_orbitRadius d /\
         speed p = d_speed d)
    planetData (planets a).
Proof.
  intros Ha.
  destruct (reachable_steady env events a Ha) as [H1 _ H3 _ _ _]; simpl in *.
  rewrite H1. destruct H3 as [_ _ S3 _].
  repeat (apply Forall2_cons || apply Forall2_nil).
  - planet_mesh_case S3 3%nat.
  - planet_mesh_case S3 4%nat.
  - planet_mesh_case S3 5%nat.
  - planet_mesh_case S3 6%nat.
  - planet_mesh_case S3 7%nat.
  - planet_mesh_case S3 8%nat.
  - planet_mesh_case S3 9%nat.
  - planet_mesh_case S3 10%nat.
Qed.

Lemma planets_match_descriptors_witness :
  exists a,
    app (run (startup (example_env false)) [Frame 16]) = Some a /\
    Forall2
      (fun d p =>
         exists m,
           mesh_at (scene a) (mesh p) = Some m /\
           geometry m = SphereGeometry (d_size d) 24 24 /\
           List.length (children m) = (if d_hasRing d then 1 else 0)%nat)
      planetData (planets a).
Proof.
  exists running1_app. split; [exact running1_live|].
  eapply Forall2_impl;
    [| apply (planets_match_descriptors (example_env false) [Frame 16]
                running1_app running1_live)].
  intros d p [m [H1 [H2 [_ [H3 _]]]]]. exists m. auto.
Defined.

(** X6. When [Math.random] yields values in [0, 1), the phase of the k-th
    planet is 2 PI times the k-th value drawn, lies in [0, 2 PI), and is the
    same in every reachable state: eight values are drawn, once. *)
Theorem phases_are_fixed env events a :
  (forall n, 0 <= random env n < 1) ->
  app (run (startup env) events) = Some a ->
  map phase (planets a)
  = map (fun k => random env k * PI * 2) (seq 0 8) /\
  Forall (fun p => 0 <= phase p < 2 * PI) (planets a).
Proof.
  intros Hr Ha.
  destruct (reachable_steady env events a Ha) as [H1 _ _ _ _ _]; simpl in *.
  rewrite H1. split; [reflexivity|].
  pose proof PI_RGT_0 as HPI.
  repeat (apply Forall_cons;
          [simpl;
           match goal with
           | |- context [random env ?k] => destruct (Hr k); split; nra
           end|]).
  apply Forall_nil.
Qed.

Lemma phases_are_fixed_witness :
  exists a,
    app (run (startup (example_env false)) [Frame 16]) = Some a /\
    Forall (fun p => 0 <= phase p < 2 * PI) (planets a).
Proof.
  exists running1_app. split; [exact running1_live|].
  apply (phases_are_fixed (example_env false) [Frame 16] running1_app).
  - intros n. change (random (example_env false) n) with 0. lra.
  - exact running1_live.
Defined.

(** ** The viewport *)

Lemma animate_window now win s :
  window (snd s) = win -> window (snd (animate now s)) = win.
Proof.
  destruct s as [a b]. unfold animate. destruct (reduceMotion a); simpl; auto.
Qed.

Lemma step_window w e :
  window (browser (step w e)) = last_window (window (browser w)) [e].
Proof.
  unfold step. destruct (app w) as [a|].
  2:{ destruct e; reflexivity. }
  destruct e as [now | matches | win]; unfold close; simpl.
  - unfold runFrameCallbacks.
    apply (callbacks_preserve (fun s => window (snd s) = window (browser w))).
    + intros s. apply animate_window.
    + reflexivity.
  - unfold onMotionChange, stopAnimation, startAnimation; simpl.
    destruct matches; simpl.
    + destruct (truthy_handle (rafId a)); reflexivity.
    + destruct (negb (truthy_handle (rafId a))); reflexivity.
  - reflexivity.
Qed.

Lemma run_window events : forall w,
  window (browser (run w events)) = last_window (window (browser w)) events.
Proof.
  induction events as [|e events IH]; intros w; simpl; [reflexivity|].
  change (fold_left step events (step w e)) with (run (step w e) events).
  rewrite IH, step_window. destruct e; reflexivity.
Qed.

Lemma startup_window env : window (browser (startup env)) = env_window env.
Proof.
  destruct (env_canvas env) as [c|] eqn:Hc.
  2:{ rewrite (startup_no_canvas env Hc). reflexivity. }
  destruct (isWebGLAvailable env) eqn:G.
  2:{ rewrite (startup_unavailable env c Hc G). unfold showFallback; simpl.
      destruct (env_fallbackEl env); reflexivity. }
  rewrite (startup_available env c Hc G).
  destruct (motionMatches env) eqn:M; simpl; rewrite ?M; reflexivity.
Qed.

(** X7. In every reachable state the renderer and the camera are sized for
    the window of the last resize event (the window at startup when there
    was none): pixel ratio [min (devicePixelRatio || 1) 2], hence at most 2,
    the window's width and height, and aspect ratio width / height, also in
    the projection.  The field of view, the clipping planes, the camera's
    position and target and the renderer's options never change. *)
Theorem viewport_tracks_window env events a :
  app (run (startup env) events) = Some a ->
  viewport_ok (last_window (env_window env) events) a /\
  pixelRatio (renderer a) <= 2 /\
  setup_fixed a.
Proof.
  intros Ha.
  destruct (reachable_steady env events a Ha) as [_ _ _ H4 H5 _]; simpl in *.
  rewrite run_window, startup_window in H4.
  split; [exact H4|]. split; [|exact H5].
  rewrite (vp_ratio _ _ H4). apply Rmin_r.
Qed.

Lemma viewport_tracks_window_witness :
  exists a,
    app (run (startup (example_env false)) [Resize (mkWindow 400 300 None)])
    = Some a /\
    width (renderer a) = 400 /\ height (renderer a) = 300 /\
    aspect (camera a) = 400 / 300 /\ fov (camera a) = 60.
Proof.
  exists running_small_app. split; [exact running_small_live|].
  destruct (viewport_tracks_window (example_env false)
              [Resize (mkWindow 400 300 None)] running_small_app
              running_small_live)
    as [H1 [_ H2]].
  split; [exact (vp_width _ _ H1)|]. split; [exact (vp_height _ _ H1)|].
  split; [exact (vp_aspect _ _ H1)|exact (sf_fov _ H2)].
Defined.

Lemma Rmin_1_2 : Rmin 1 2 = 1.
Proof. unfold Rmin. destruct (Rle_dec 1 2); lra. Qed.

(** X8. A resize whose window reports no device pixel ratio, or the ratio 0,
    sets the pixel ratio to 1. *)
Theorem resize_without_ratio w a win :
  app w = Some a ->
  devicePixelRatio win = None \/ devicePixelRatio win = Some 0 ->
  exists a',
    app (step w (Resize win)) = Some a' /\
    pixelRatio (renderer a') = 1.
Proof.
  intros Ha Hd. unfold step. rewrite Ha.
  unfold onResize, applySize, close; simpl.
  assert (E : or_one (devicePixelRatio win) = 1).
  { destruct Hd as [-> | ->]; apply or_one_default. }
  rewrite E, Rmin_1_2.
  destruct (reduceMotion a) eqn:M; eexists; (split; [reflexivity|]); simpl;
    rewrite ?M; reflexivity.
Qed.

Lemma resize_without_ratio_witness :
  exists a',
    app (step (startup (example_env false)) (Resize (mkWindow 800 600 None)))
    = Some a' /\
    pixelRatio (renderer a') = 1.
Proof.
  apply (resize_without_ratio (startup (example_env false)) running0_app
           (mkWindow 800 600 None) running0_live).
  left. reflexivity.
Defined.

(** X9. Resizing twice to the same window: the second resize changes
    nothing when the component is RUNNING, and only draws once more when it
    is PAUSED. *)
Theorem resize_twice w a win :
  app w = Some a ->
  let w1 := step w (Resize win) in
  exists a1,
    app w1 = Some a1 /\
    step w1 (Resize win)
    = mkWorld (browser w1) (Some (if reduceMotion a then renderFrame a1 else a1)).
Proof.
  intros Ha w1. subst w1. unfold step. rewrite Ha.
  unfold onResize, applySize, close; simpl.
  destruct (reduceMotion a) eqn:M; eexists; (split; [reflexivity|]); simpl;
    rewrite ?M; reflexivity.
Qed.

Lemma resize_twice_witness :
  exists a1,
    app (step (startup (example_env false)) (Resize example_window)) = Some a1 /\
    step (step (startup (example_env false)) (Resize example_window))
         (Resize example_window)
    = mkWorld (browser (step (startup (example_env false))
                             (Resize example_window)))
              (Some a1).
Proof.
  apply (resize_twice (startup (example_env false)) running0_app
           example_window running0_live).
Defined.

(** ** The motion preference and the loop *)

Lemma step_reduceMotion w e a a' :
  app w = Some a -> app (step w e) = Some a' ->
  reduceMotion a' = last_matches (reduceMotion a) [e].
Proof.
  intros Ha. unfold step. rewrite Ha.
  destruct e as [now | matches | win]; unfold close; cbn [app]; intros [= <-].
  - unfold runFrameCallbacks.
    apply (callbacks_preserve
             (fun s => reduceMotion (fst s) = reduceMotion a)).
    + intros s Hs. rewrite animate_reduceMotion. exact Hs.
    + reflexivity.
  - unfold onMotionChange, stopAnimation, startAnimation; simpl.
    destruct matches; simpl; [reflexivity|].
    destruct (negb (truthy_handle (rafId a))); reflexivity.
  - unfold onResize, applySize; simpl.
    destruct (reduceMotion a) eqn:M; simpl; rewrite ?M; reflexivity.
Qed.

Lemma run_reduceMotion events : forall w a a',
  app w = Some a -> app (run w events) = Some a' ->
  reduceMotion a' = last_matches (reduceMotion a) events.
Proof.
  induction events as [|e events IH]; intros w a a' Ha Ha'; simpl in *.
  - congruence.
  - destruct (step_app_some w e a Ha) as [a1 H1].
    rewrite (IH (step w e) a1 a' H1 Ha').
    rewrite (step_reduceMotion w e a a1 Ha H1). destruct e; reflexivity.
Qed.

Lemma startup_reduceMotion env a :
  app (startup env) = Some a -> reduceMotion a = motionMatches env.
Proof.
  intros Ha.
  destruct (env_canvas env) as [c|] eqn:Hc.
  2:{ rewrite (startup_no_canvas env Hc) in Ha. discriminate. }
  destruct (isWebGLAvailable env) eqn:G.
  2:{ rewrite (startup_unavailable env c Hc G) in Ha. discriminate. }
  rewrite (startup_available env c Hc G) in Ha.
  destruct (motionMatches env) eqn:M.
  - injection Ha as <-. exact M.
  - simpl in Ha. rewrite M in Ha. simpl in Ha. injection Ha as <-. exact M.
Qed.

(** X10. In every reachable state [reduceMotion] is the [matches] of the
    last change event, or the preference at startup when there was none; and
    whenever it is false the loop is alive: exactly one frame callback is
    queued, under the nonzero handle stored in [rafId]. *)
Theorem loop_follows_preference env events a :
  app (run (startup env) events) = Some a ->
  reduceMotion a = last_matches (motionMatches env) events /\
  (reduceMotion a = false ->
   rafId a <> 0%N /\ pending (run (startup env) events) = [rafId a]).
Proof.
  intros Ha. split.
  - destruct (app (startup env)) as [a0|] eqn:H0.
    + rewrite (run_reduceMotion events (startup env) a0 a H0 Ha).
      rewrite (startup_reduceMotion env a0 H0). reflexivity.
    + rewrite (run_app_none events (startup env) H0) in Ha. discriminate.
  - intros M. destruct (reachable_inv env events) as [L _].
    unfold loop_inv in L. rewrite Ha, M in L. exact L.
Qed.

Lemma loop_follows_preference_witness :
  exists a,
    app (run (startup (example_env false)) [Frame 16]) = Some a /\
    reduceMotion a = false /\
    List.length (pending (run (startup (example_env false)) [Frame 16])) = 1%nat.
Proof.
  exists running1_app. split; [exact running1_live|].
  destruct (loop_follows_preference (example_env false) [Frame 16]
              running1_app running1_live)
    as [H1 H2].
  split; [exact H1|].
  destruct (H2 H1) as [_ ->]. reflexivity.
Defined.

Lemma frame_running b a now :
  reduceMotion a = false -> rafPending b = [rafId a] ->
  step (mkWorld b (Some a)) (Frame now)
  = mkWorld (snd (requestAnimationFrame (set_rafPending [] b)))
            (Some (renderFrame
                     (updatePositions now
                        (set_rafId (N.succ (rafCounter b)) a)))).
Proof.
  intros M P. unfold step, runFrameCallbacks; simpl. rewrite P. simpl.
  rewrite M. reflexivity.
Qed.

Lemma updateMany_scene_ext times : forall a a',
  scene a = scene a' -> planets a = planets a' -> sun a = sun a' ->
  scene (updateMany times a) = scene (updateMany times a').
Proof.
  induction times as [|t times IH]; intros a a' Hs Hp Hu; simpl.
  - exact Hs.
  - apply IH; simpl; auto.
    unfold updatePositions; simpl. rewrite Hs, Hp, Hu. reflexivity.
Qed.

Lemma frames_running times : forall b a,
  reduceMotion a = false -> rafPending b = [rafId a] ->
  exists a',
    app (run (mkWorld b (Some a)) (map Frame times)) = Some a' /\
    scene a' = scene (updateMany times a) /\
    draws (renderer a') = (draws (renderer a) + List.length times)%nat /\
    reduceMotion a' = false /\
    pending (run (mkWorld b (Some a)) (map Frame times)) = [rafId a'] /\
    rafCounter (browser (run (mkWorld b (Some a)) (map Frame times)))
    = (rafCounter b + N.of_nat (List.length times))%N.
Proof.
  induction times as [|t times IH]; intros b a M P.
  - exists a. unfold pending. simpl. rewrite N.add_0_r, Nat.add_0_r.
    repeat split; auto.
  - change (run (mkWorld b (Some a)) (map Frame (t :: times)))
      with (run (step (mkWorld b (Some a)) (Frame t)) (map Frame times)).
    rewrite (frame_running b a t M P).
    destruct (IH (snd (requestAnimationFrame (set_rafPending [] b)))
                 (renderFrame (updatePositions t
                                 (set_rafId (N.succ (rafCounter b)) a))))
      as [a' [H1 [H2 [H3 [H4 [H5 H6]]]]]].
    + exact M.
    + reflexivity.
    + exists a'. split; [exact H1|].
      split.
      { rewrite H2.
        change (updateMany (t :: times) a)
          with (updateMany times (updatePositions t a)).
        apply updateMany_scene_ext; reflexivity. }
      split; [rewrite H3; simpl; lia|]. split; [exact H4|].
      split; [exact H5|]. rewrite H6. simpl rafCounter.
      change (List.length (t :: times)) with (S (List.length times)). lia.
Qed.

(** X11. The loop never stops by itself.  From a reachable RUNNING state,
    [n] frames in a row run [updatePositions] and draw [n] times - the scene
    is the one [n] calls of [updatePositions] at the frames' times give -,
    request [n] handles, and leave the component RUNNING with exactly one
    callback queued. *)
Theorem frames_keep_running env events a times :
  let w := run (startup env) events in
  app w = Some a ->
  reduceMotion a = false ->
  let w' := run w (map Frame times) in
  exists a',
    app w' = Some a' /\
    scene a' = scene (updateMany times a) /\
    draws (renderer a') = (draws (renderer a) + List.length times)%nat /\
    reduceMotion a' = false /\
    pending w' = [rafId a'] /\
    rafCounter (browser w')
    = (rafCounter (browser w) + N.of_nat (List.length times))%N.
Proof.
  intros w Ha M w'. destruct (reachable_inv env events) as [L _].
  fold w in L. unfold loop_inv, pending in L. rewrite Ha, M in L.
  destruct L as [_ L]. subst w'.
  destruct w as [b oa]. simpl in Ha. subst oa. simpl in L.
  apply frames_running; assumption.
Qed.

Lemma frames_keep_running_witness :
  let w := run (startup (example_env false)) [] in
  exists a',
    app (run w (map Frame [16; 33; 50])) = Some a' /\
    draws (renderer a') = 3%nat /\
    List.length (pending (run w (map Frame [16; 33; 50]))) = 1%nat.
Proof.
  destruct (frames_keep_running (example_env false) [] running0_app
              [16; 33; 50] running0_live eq_refl)
    as [a' [H1 [_ [H2 [_ [H3 _]]]]]].
  exists a'. split; [exact H1|]. split; [exact H2|].
  rewrite H3. reflexivity.
Defined.

Lemma frame_paused b a now :
  rafPending b = [] ->
  step (mkWorld b (Some a)) (Frame now) = mkWorld b (Some a).
Proof.
  intros P. unfold step, runFrameCallbacks; simpl. rewrite P. simpl.
  unfold close, set_rafPending; simpl. rewrite <- P.
  destruct b; reflexivity.
Qed.

(** X12. A PAUSED component is frozen: from a reachable state with
    [reduceMotion] true, any number of frames changes nothing at all - no
    planet moves, the sun does not turn, nothing is drawn or queued. *)
Theorem frames_do_nothing_when_paused env events a times :
  let w := run (startup env) events in
  app w = Some a ->
  reduceMotion a = true ->
  run w (map Frame times) = w.
Proof.
  intros w Ha M. destruct (reachable_inv env events) as [L _].
  fold w in L. unfold loop_inv, pending in L. rewrite Ha, M in L.
  destruct L as [_ L].
  destruct w as [b oa]. simpl in Ha. subst oa. simpl in L.
  induction times as [|t times IH]; simpl.
  - reflexivity.
  - change (fold_left step (map Frame times)
                      (step (mkWorld b (Some a)) (Frame t)))
      with (run (step (mkWorld b (Some a)) (Frame t)) (map Frame times)).
    rewrite (frame_paused b a t L). exact IH.
Qed.

Lemma frames_do_nothing_when_paused_witness :
  let w := run (startup (example_env true)) [] in
  run w (map Frame [16; 33]) = w.
Proof.
  apply (frames_do_nothing_when_paused (example_env true) [] paused0_app
           [16; 33] paused0_live eq_refl).
Defined.

(** ** The first frame *)

Lemma Forall2_nth_error {A B} (P : A -> B -> Prop) l l' n u v :
  Forall2 P l l' -> nth_error l n = Some u -> nth_error l' n = Some v -> P u v.
Proof.
  intros H. revert n. induction H as [|u0 v0 l l' H0 _ IH]; intros [|n];
    simpl; try discriminate.
  - intros [= <-] [= <-]. exact H0.
  - apply IH.
Qed.

Lemma angle_at_zero p : angle 0 p = phase p.
Proof. unfold angle. lra. Qed.

(** X13. With reduced motion at startup the component renders one static
    frame: [startup] draws exactly once, queues no callback and requests no
    handle, and the frame shows every planet where time 0 puts it, at
    [(orbitRadius cos(phase), 0, orbitRadius sin(phase))], and the sun
    turned by one increment, 0.002. *)
Theorem reduced_startup_draws_once env c :
  env_canvas env = Some c ->
  acquisition_succeeds env ->
  motionMatches env = true ->
  exists a,
    app (startup env) = Some a /\
    draws (renderer a) = 1%nat /\
    pending (startup env) = [] /\
    rafId a = 0%N /\
    rafCounter (browser (startup env)) = env_rafCounter env /\
    sun_rotation_y a = Some 0.002 /\
    Forall2
      (fun d p =>
         planet_position a p
         = Some (mkVector3 (d_orbitRadius d * cos (phase p)) 0
                           (d_orbitRadius d * sin (phase p))))
      planetData (planets a).
Proof.
  intros Hc G M. apply isWebGLAvailable_true in G.
  rewrite (startup_available env c Hc G), M.
  eexists. split; [reflexivity|]. split; [reflexivity|].
  split; [reflexivity|]. split; [reflexivity|]. split; [reflexivity|].
  split.
  { unfold sun_rotation_y. simpl. f_equal. lra. }
  pose proof (initial_app_wf env) as W.
  assert (HP : Forall (fun p => planet_position
                                  (updatePositions 0 (initial_app env)) p
                                = Some (on_orbit 0 p))
                      (planets (initial_app env))).
  { apply Forall_forall. intros p Hin. apply updatePositions_position; assumption. }
  pose proof (Forall2_and_right _ _ _ _ (wf_static _ W) HP) as HF.
  eapply Forall2_impl; [|exact HF]. clear.
  intros d p [[Hr _] Hpos]. cbv beta in Hpos.
  change (planet_position _ p)
    with (planet_position (updatePositions 0 (initial_app env)) p).
  rewrite Hpos. unfold on_orbit. rewrite angle_at_zero, Hr.
  f_equal. f_equal; ring.
Qed.

Lemma reduced_startup_draws_once_witness :
  exists a,
    app (startup (example_env true)) = Some a /\
    draws (renderer a) = 1%nat /\
    nth_error (map (planet_position a) (planets a)) 0
    = Some (Some (mkVector3 9 0 0)).
Proof.
  destruct (reduced_startup_draws_once (example_env true) (mkCanvas EmptyString)
              eq_refl (or_introl eq_refl) eq_refl)
    as [a [H1 [H2 [_ [_ [_ [_ H3]]]]]]].
  exists a. split; [exact H1|]. split; [exact H2|].
  rewrite paused0_live in H1. injection H1 as <-.
  pose proof (Forall2_nth_error _ _ _ 0%nat
                ("Mercury", "#b2b2b2", "#6e6e6e", 9, 0.7, 0.018, false)%string
                (planet_of paused0_app 0) H3 eq_refl eq_refl) as Hp.
  cbv beta in Hp.
  transitivity (Some (planet_position paused0_app (planet_of paused0_app 0)));
    [reflexivity|].
  rewrite Hp.
  change (phase (planet_of paused0_app 0)) with (0 * PI * 2).
  change (d_orbitRadius
            ("Mercury", "#b2b2b2", "#6e6e6e", 9, 0.7, 0.018, false)%string)
    with 9.
  replace (0 * PI * 2) with 0 by ring.
  rewrite cos_0, sin_0. do 2 f_equal. f_equal; ring.
Defined.

(** X14. Without reduced motion [startup] draws nothing itself: it requests
    one handle, the successor of the browser's counter, and the callback
    queued under it is the only thing pending; until that first frame runs,
    every planet is still at the origin and the sun is not turned. *)
Theorem running_startup_waits_for_frame env c :
  env_canvas env = Some c ->
  acquisition_succeeds env ->
  motionMatches env = false ->
  exists a,
    app (startup env) = Some a /\
    draws (renderer a) = 0%nat /\
    rafId a = N.succ (env_rafCounter env) /\
    pending (startup env) = [rafId a] /\
    sun_rotation_y a = Some 0 /\
    List.length (planets a) = 8%nat /\
    Forall (fun p => planet_position a p = Some origin) (planets a).
Proof.
  intros Hc G M. apply isWebGLAvailable_true in G.
  rewrite (startup_available env c Hc G), M.
  unfold startAnimation; simpl. rewrite M. simpl.
  eexists. split; [reflexivity|].
  repeat split; try reflexivity.
  repeat (apply Forall_cons; [reflexivity|]). apply Forall_nil.
Qed.

Lemma running_startup_waits_for_frame_witness :
  exists a,
    app (startup (example_env false)) = Some a /\
    draws (renderer a) = 0%nat /\
    pending (startup (example_env false)) = [1%N].
Proof.
  destruct (running_startup_waits_for_frame (example_env false)
              (mkCanvas EmptyString) eq_refl (or_introl eq_refl) eq_refl)
    as [a [H1 [H2 [H3 [H4 _]]]]].
  exists a. split; [exact H1|]. split; [exact H2|].
  rewrite H4, H3. reflexivity.
Defined.

(** ** Pausing and resuming, continued *)

(** X15. Pausing and resuming a reachable RUNNING component costs one draw
    and one handle and changes nothing else: the scene, the camera, the
    planet entries and the flag are as before, the renderer has drawn once
    more, and the one callback now queued has a new handle, different from
    the cancelled one. *)
Theorem pause_then_resume env events a :
  let w := run (startup env) events in
  app w = Some a ->
  reduceMotion a = false ->
  let w' := run w [MotionChange true; MotionChange false] in
  exists a',
    app w' = Some a' /\
    a' = set_rafId (N.succ (rafCounter (browser w))) (renderFrame a) /\
    rafId a' <> rafId a /\
    pending w' = [rafId a'] /\
    ~ In (rafId a) (pending w').
Proof.
  intros w Ha M. destruct (reachable_inv env events) as [L _].
  pose proof (reachable_steady env events a Ha) as S.
  apply sd_handle in S. fold w in L, S. simpl in S.
  unfold loop_inv, pending in L. rewrite Ha, M in L.
  destruct L as [L1 L2]. apply truthy_handle_true in L1.
  destruct w as [b oa]. simpl in Ha. subst oa. simpl in L2, S.
  intros w'. subst w'.
  unfold run, fold_left. rewrite step_motion_true.
  unfold stopAnimation; simpl. rewrite L1.
  unfold close; simpl. rewrite step_motion_false.
  unfold startAnimation, pending, cancelAnimationFrame; simpl.
  rewrite L2; simpl. rewrite N.eqb_refl; simpl.
  assert (Hne : N.succ (rafCounter b) <> rafId a) by lia.
  eexists. split; [reflexivity|].
  split; [unfold set_rafId, renderFrame; simpl; rewrite M; reflexivity|].
  simpl. split; [exact Hne|]. split; [reflexivity|].
  intros [E | []]. apply Hne, E.
Qed.

Lemma pause_then_resume_witness :
  let w := run (startup (example_env false)) [Frame 16] in
  exists a a',
    app w = Some a /\
    app (run w [MotionChange true; MotionChange false]) = Some a' /\
    scene a' = scene a /\
    draws (renderer a') = S (draws (renderer a)) /\
    pending (run w [MotionChange true; MotionChange false]) = [3%N].
Proof.
  intros w. subst w.
  destruct (pause_then_resume (example_env false) [Frame 16] running1_app
              running1_live eq_refl)
    as [a' [H1 [H2 [_ [H3 _]]]]].
  exists running1_app, a'.
  split; [exact running1_live|]. split; [exact H1|].
  rewrite H3, H2, running1_eq. repeat split; reflexivity.
Defined.

(** X16. Only a frame callback moves anything: in any state of a live
    component, a motion-change or a resize event leaves the scene, the
    planet entries and the reference to the sun untouched. *)
Theorem only_frames_move w a e :
  app w = Some a ->
  (forall now, e <> Frame now) ->
  exists a',
    app (step w e) = Some a' /\
    scene a' = scene a /\ planets a' = planets a /\ sun a' = sun a.
Proof.
  intros Ha He. unfold step. rewrite Ha.
  destruct e as [now | matches | win].
  - exfalso. apply (He now). reflexivity.
  - unfold onMotionChange, stopAnimation, startAnimation, close; simpl.
    destruct matches; simpl.
    + eexists. split; [reflexivity|]. auto.
    + destruct (negb (truthy_handle (rafId a))); simpl;
        eexists; (split; [reflexivity|]); auto.
  - unfold onResize, applySize, close; simpl.
    destruct (reduceMotion a) eqn:M; eexists; (split; [reflexivity|]);
      simpl; rewrite ?M; auto.
Qed.

Lemma only_frames_move_witness :
  exists a',
    app (step (startup (example_env true)) (Resize example_window)) = Some a' /\
    sun_rotation_y a' = Some 0.002.
Proof.
  destruct (only_frames_move (startup (example_env true)) paused0_app
              (Resize example_window) paused0_live)
    as [a' [H1 [H2 [_ H3]]]].
  { intros now. discriminate. }
  exists a'. split; [exact H1|].
  unfold sun_rotation_y. rewrite H2, H3.
  transitivity (Some (0 + 0.002)); [reflexivity | f_equal; lra].
Defined.

(** X17. The guard at the head of [animate]: in any state of a PAUSED
    component, even one in which callbacks were left in the queue, a frame
    empties the queue and does nothing else - it does not move, draw or
    queue anything. *)
Theorem paused_frame_is_discarded w a now :
  app w = Some a ->
  reduceMotion a = true ->
  step w (Frame now) = mkWorld (set_rafPending [] (browser w)) (Some a).
Proof.
  intros Ha M. unfold step. rewrite Ha. unfold runFrameCallbacks, close.
  assert (E : fold_left (fun s _ => animate now s) (rafPending (browser w))
                        (a, set_rafPending [] (browser w))
              = (a, set_rafPending [] (browser w))).
  { apply (callbacks_preserve
             (fun s => s = (a, set_rafPending [] (browser w)))).
    - intros s ->. apply animate_paused, M.
    - reflexivity. }
  rewrite E. reflexivity.
Qed.

Lemma paused_frame_is_discarded_witness :
  let b := mkBrowser None None example_window 7 [5; 6; 7]%N in
  let a := initial_app (example_env true) in
  pending (step (mkWorld b (Some a)) (Frame 16)) = [] /\
  draw_count (step (mkWorld b (Some a)) (Frame 16)) = 0%nat.
Proof.
  intros b a.
  rewrite (paused_frame_is_discarded (mkWorld b (Some a)) a 16 eq_refl eq_refl).
  split; reflexivity.
Defined.

(** ** Orbit guides, the sun and the fallback panel *)

Lemma guides_static built sc :
  scene_static built sc -> skipn 11 sc = skipn 11 built.
Proof.
  intros H. apply nth_error_ext. intros n. rewrite !nth_error_skipn.
  apply (st_fixed _ _ H).
  - unfold sun_ref. lia.
  - unfold planet_refs. simpl. lia.
Qed.

Lemma Forall2_and_left {A B} (P : A -> Prop) (Q : A -> B -> Prop) l l' :
  Forall P l -> Forall2 Q l l' -> Forall2 (fun u v => P u /\ Q u v) l l'.
Proof.
  intros HP HQ. revert HP. induction HQ as [|u v l l' Huv HF IH]; intros HP.
  - constructor.
  - inversion HP; subst. constructor; auto.
Qed.

(** X18. Every planet rides its orbit guide.  In every reachable state the
    last eight objects of the scene are the guides, one per planet in order:
    flat rings from [orbitRadius - 0.01] to [orbitRadius + 0.01], at the
    origin, never moved; and wherever [updatePositions] puts a planet, its
    distance from the origin lies strictly between the two radii of its
    guide. *)
Theorem planet_rides_its_guide env events a t :
  app (run (startup env) events) = Some a ->
  Forall2
    (fun p o =>
       exists guide v,
         o = MeshObj guide /\
         geometry guide
         = RingGeometry (orbitRadius p - 0.01) (orbitRadius p + 0.01) 64 /\
         position guide = origin /\
         rotation guide = mkVector3 (PI / 2) 0 0 /\
         planet_position (updatePositions t a) p = Some v /\
         (orbitRadius p - 0.01) * (orbitRadius p - 0.01)
         < x v * x v + z v * z v
         < (orbitRadius p + 0.01) * (orbitRadius p + 0.01))
    (planets a) (skipn 11 (scene (updatePositions t a))).
Proof.
  intros Ha.
  destruct (reachable_inv env events) as [_ W]. specialize (W a Ha).
  pose proof (reachable_steady env events a Ha) as S.
  pose proof (steady_updatePositions env t a _ S) as S'.
  destruct S as [H1 _ _ _ _ _]. destruct S' as [_ _ H3 _ _ _].
  cbn [fst snd] in H1, H3.
  rewrite (guides_static _ _ H3).
  assert (HP : Forall (fun p => planet_position (updatePositions t a) p
                                = Some (on_orbit t p)) (planets a)).
  { apply Forall_forall. intros p Hin. apply updatePositions_position; assumption. }
  assert (HQ : Forall2
                 (fun p o =>
                    9 <= orbitRadius p /\
                    exists guide,
                      o = MeshObj guide /\
                      geometry guide
                      = RingGeometry (orbitRadius p - 0.01)
                                     (orbitRadius p + 0.01) 64 /\
                      position guide = origin /\
                      rotation guide = mkVector3 (PI / 2) 0 0)
                 (planets a)
                 (skipn 11 (fst (built_scene (textureApi env) (random env))))).
  { rewrite H1.
    repeat (apply Forall2_cons;
            [split; [simpl; lra | eexists; repeat split; reflexivity]|]).
    apply Forall2_nil. }
  pose proof (Forall2_and_left _ _ _ _ HP HQ) as HF.
  eapply Forall2_impl; [|exact HF]. clear.
  intros p o [Hpos [Hr [guide [H1 [H2 [H3 H4]]]]]].
  exists guide, (on_orbit t p). repeat split; try assumption.
  - unfold on_orbit; simpl. rewrite circle_identity. nra.
  - unfold on_orbit; simpl. rewrite circle_identity. nra.
Qed.

Lemma planet_rides_its_guide_witness :
  exists a,
    app (run (startup (example_env false)) [Frame 16]) = Some a /\
    List.length (skipn 11 (scene (updatePositions 1000 a))) = 8%nat.
Proof.
  exists running1_app. split; [exact running1_live|].
  pose proof (Forall2_length
                (planet_rides_its_guide (example_env false) [Frame 16]
                   running1_app 1000 running1_live)) as H.
  etransitivity; [symmetry; exact H | reflexivity].
Defined.

(** X19. The sun stays where it was built.  In every reachable state the
    sun's mesh is the sphere of radius 5 at the origin, with no child and
    not rotated about [x] or [z]: only its rotation about [y] ever
    changes. *)
Theorem sun_stays_at_origin env events a :
  app (run (startup env) events) = Some a ->
  exists m,
    mesh_at (scene a) (sun a) = Some m /\
    geometry m = SphereGeometry 5 32 32 /\
    position m = origin /\
    children m = [] /\
    x (rotation m) = 0 /\ z (rotation m) = 0.
Proof.
  intros Ha.
  destruct (reachable_steady env events a Ha) as [_ H2 H3 _ _ _]; simpl in *.
  rewrite H2. pose proof (st_sun _ _ H3) as E.
  destruct (mesh_at (scene a) sun_ref) as [m|]; [|discriminate E].
  exists m. split; [reflexivity|].
  unfold sun_static in E. cbn in E.
  injection E as -> _ -> -> -> ->. repeat split; reflexivity.
Qed.

Lemma sun_stays_at_origin_witness :
  exists a m,
    app (run (startup (example_env false)) [Frame 16]) = Some a /\
    mesh_at (scene a) (sun a) = Some m /\
    position m = origin.
Proof.
  exists running1_app.
  destruct (sun_stays_at_origin (example_env false) [Frame 16] running1_app
              running1_live)
    as [m [H1 [_ [H2 _]]]].
  exists m. split; [exact running1_live|]. split; [exact H1|exact H2].
Defined.

(** X20. [showFallback] reveals the panel when the page has one, replacing
    its text only by a non-empty message; it does nothing on a page without
    the panel; it never touches the canvas, the window or the frame queue;
    and showing the same message again changes nothing. *)
Theorem showFallback_reveals message b :
  let b' := showFallback message b in
  (forall el, fallbackEl b = Some el ->
              fallbackEl b'
              = Some (mkElement (if truthy_string message then message
                                 else textContent el) false)) /\
  (fallbackEl b = None -> b' = b) /\
  canvas b' = canvas b /\ window b' = window b /\
  rafPending b' = rafPending b /\ rafCounter b' = rafCounter b /\
  showFallback message b' = b'.
Proof.
  unfold showFallback. destruct (fallbackEl b) as [el|] eqn:E; simpl.
  - repeat split; try reflexivity.
    + intros el' [= <-]. destruct (truthy_string message); reflexivity.
    + discriminate.
    + destruct (truthy_string message); reflexivity.
  - rewrite E. repeat split; try reflexivity. discriminate.
Qed.
